(** * A shallow embedding of [app.py] (Flask front end over yt-dlp)

    The program keeps one shared dictionary, [download_progress], from
    download identifiers to job records.  HTTP handlers read it, and one
    background thread per download writes it.  This file embeds

    - the job registry and the record updates of [download_video] and of
      its nested [progress_hook] (lines 18-58),
    - the format catalogue built by [get_video_info] (lines 80-95),
    - the handlers [download] (lines 108-130), [get_progress]
      (lines 132-136) and [download_file] (lines 138-153),
    - the quality options that the page script builds and posts
      (lines 546-562 and 587-590),

    and proves the properties of the specification about them, then
    further properties that the code shows.

    Conventions.  Python dictionaries are [gmap]s.  Python [float]s are
    modelled by exact rationals (type [pyfloat]); the rounding error of
    the double-precision division and multiplication is not modelled,
    and where a theorem says which number is stored it leaves the room
    of that error, so that it reads the same on doubles.  The builtin [float(str)] is a parameter of the development.  The
    extraction collaborator (yt-dlp) is modelled by what it does to the
    program: the sequence of calls of the progress hook, followed by a
    normal return or by an exception. *)

From Stdlib Require Import QArith Qround Qabs Lia Lqa Ascii String.
From stdpp Require Import gmap strings list fin_maps pretty sorting.

Close Scope Q_scope.
Open Scope string_scope.
Open Scope Z_scope.

(** ** Python values *)

(** A Python [float]: a finite value, an infinity or a NaN. *)
Inductive pyfloat :=
| Finite (q : Q)
| Inf (negative : bool)
| NaN.

(** The values stored in job records and JSON bodies. *)
Inductive value :=
| VInt (n : Z)
| VFloat (x : pyfloat)
| VStr (s : string).

(** An instance of [Exception]: its class name and [str(e)]. *)
Record exn := Exn { exn_class : string; exn_str : string }.

(** [str(KeyError(k))] is the [repr] of the key. *)
Definition KeyError (k : string) : exn := Exn "KeyError" ("'" +:+ k +:+ "'").
Definition ValueError (msg : string) : exn := Exn "ValueError" msg.

(** A job record is a dictionary from field names to values; the
    registry [download_progress] maps identifiers to job records. *)
Abbreviation job := (gmap string value).
Abbreviation registry := (gmap string (gmap string value)).

(** ** Numbers *)

(** [int(x)] on a float: truncation toward zero. *)
Definition py_int (x : Q) : Z := Z.quot (Qnum x) (Z.pos (Qden x)).

(** [str(n)] on an int: decimal digits, with a leading minus sign. *)
Definition py_str (n : Z) : string := pretty n.

(** Rounding of a rational to the nearest integer, ties to even. *)
Definition round_half_even (x : Q) : Z :=
  let fl := Qfloor x in
  match (x - inject_Z fl ?= 1 # 2)%Q with
  | Lt => fl
  | Gt => fl + 1
  | Eq => if Z.even fl then fl else fl + 1
  end.

(** [round(x, 1)]: the nearest multiple of one tenth.  Here [x] is the
    exact quotient; line 27 rounds the double that line 26 computed,
    which is a neighbour of [x], so that where [x] lies within a double
    rounding error of a tie the code may store the other neighbouring
    tenth (23 of 80 bytes: the double is 28.749999999999996 and the code
    stores 28.7, this function gives 28.8).  The stored double also
    differs from the tenth by its own rounding error, and a quotient too
    large for a double raises [OverflowError].  The properties below
    that speak of a stored progress are stated so as to hold with these
    differences. *)
Definition round1 (x : Q) : Q := Qmake (round_half_even (x * 10)%Q) 10.

(** The value of a numeric field, when it is a finite number. *)
Definition number_of (v : value) : option Q :=
  match v with
  | VInt n => Some (inject_Z n)
  | VFloat (Finite q) => Some q
  | _ => None
  end.

(** [0 <= v <= 100], for a stored value. *)
Definition in_percent_range (v : value) : Prop :=
  match number_of v with
  | Some q => (0 <= q /\ q <= 100)%Q
  | None => False
  end.

(** ** Strings *)

(** [s.replace('%', '')]. *)
Fixpoint remove_percent (s : string) : string :=
  match s with
  | EmptyString => EmptyString
  | String c r =>
      if Ascii.eqb c "%"%char then remove_percent r
      else String c (remove_percent r)
  end.

Fixpoint has_slash (s : string) : bool :=
  match s with
  | EmptyString => false
  | String c r => Ascii.eqb c "/"%char || has_slash r
  end.

(** [os.path.basename(p)] (posixpath): what follows the last slash. *)
Fixpoint basename (p : string) : string :=
  match p with
  | EmptyString => EmptyString
  | String c r =>
      if has_slash r then basename r
      else if Ascii.eqb c "/"%char then r else p
  end.

(** ** State and exceptions

    A computation reads and writes the registry and either returns a
    value or raises; the writes made before an exception persist. *)

Inductive outcome (A : Type) :=
| Ok (a : A)
| Raised (e : exn).
Arguments Ok {A} a.
Arguments Raised {A} e.

Definition py (A : Type) : Type := registry -> outcome A * registry.

Definition raise {A} (e : exn) : py A := fun reg => (Raised e, reg).

#[global] Instance py_ret : MRet py := fun A a reg => (Ok a, reg).

#[global] Instance py_bind : MBind py := fun A B k m reg =>
  match m reg with
  | (Ok a, reg') => k a reg'
  | (Raised e, reg') => (Raised e, reg')
  end.

(** [try: m  except Exception as e: h e]. *)
Definition try_except {A} (m : py A) (h : exn -> py A) : py A :=
  fun reg =>
    match m reg with
    | (Ok a, reg') => (Ok a, reg')
    | (Raised e, reg') => h e reg'
    end.

(** [download_progress[id] = r]. *)
Definition set_job (id : string) (r : job) : py unit :=
  fun reg => (Ok tt, <[id := r]> reg).

(** [download_progress[id][k] = v]: a [KeyError] when [id] is absent. *)
Definition set_field (id k : string) (v : value) : py unit :=
  fun reg =>
    match reg !! id with
    | Some r => (Ok tt, <[id := <[k := v]> r]> reg)
    | None => (Raised (KeyError id), reg)
    end.

(** ** Collaborator events

    The dictionary [d] passed to the progress hook.  [None] stands for
    an absent key; for [total_bytes] it also stands for a key holding
    Python's [None] (both are falsy at line 25). *)
Record event := {
  status : string;
  downloaded_bytes : option Z;
  total_bytes : option Z;
  _percent_str : option string;
  filename : option string
}.

(** What [YoutubeDL(opts).download([url])] does to the program: it
    calls the hook on each event in turn, then returns or raises. *)
Inductive ending :=
| Returns
| Raises (e : exn).

Record behaviour := { emitted : list event; ends : ending }.

(** ** The worker: [download_video] *)

Section Worker.

(** The builtin [float(s)]; [None] stands for [ValueError]. *)
Variable py_float : string -> option pyfloat.

(** Lines 23-37. *)
Definition progress_hook (download_id : string) (d : event) : py unit :=
  if String.eqb (status d) "downloading" then
    match total_bytes d with
    | Some (Z.pos _ as total) | Some (Z.neg _ as total) =>
        match downloaded_bytes d with
        | None => raise (KeyError "downloaded_bytes")
        | Some n =>
            let percent := ((inject_Z n / inject_Z total) * 100)%Q in
            set_field download_id "progress" (VFloat (Finite (round1 percent)))
        end
    | Some 0 | None =>
        match _percent_str d with
        | Some s =>
            let percent_str := remove_percent s in
            try_except
              match py_float percent_str with
              | Some x => set_field download_id "progress" (VFloat x)
              | None => raise (ValueError "could not convert string to float")
              end
              (fun _ => mret tt)
        | None => mret tt
        end
    end
  else if String.eqb (status d) "finished" then
    set_field download_id "status" (VStr "completed") ;;
    set_field download_id "progress" (VInt 100) ;;
    match filename d with
    | Some p => set_field download_id "filename" (VStr (basename p))
    | None => raise (KeyError "filename")
    end
  else mret tt.

(** Lines 40-45. *)
Definition format_selector (quality : string) : string :=
  if String.eqb quality "best" then "best[ext=mp4]"
  else if String.eqb quality "worst" then "worst[ext=mp4]"
  else "best[height<=" +:+ quality +:+ "][ext=mp4]".

(** Line 21. *)
Definition new_job : job :=
  <["status" := VStr "downloading"]>
    (<["progress" := VInt 0]> (<["filename" := VStr ""]> ∅)).

(** Lines 56-58. *)
Definition on_exception (download_id : string) (e : exn) : py unit :=
  set_field download_id "status" (VStr "error") ;;
  set_field download_id "error" (VStr (exn_str e)).

(** The calls of the hook, in order.  An exception raised by the hook
    passes through the collaborator, which has no handler for it, and
    ends the call of line 54. *)
Fixpoint call_hooks (hook : event -> py unit) (ds : list event) : py unit :=
  match ds with
  | [] => mret tt
  | d :: ds => hook d ;; call_hooks hook ds
  end.

(** How the call of the collaborator ends. *)
Definition ending_of (fin : ending) : py unit :=
  match fin with
  | Returns => mret tt
  | Raises e => raise e
  end.

(** Lines 53-54, for a collaborator that behaves as [b]. *)
Definition ydl_download (hook : event -> py unit) (b : behaviour) : py unit :=
  call_hooks hook (emitted b) ;; ending_of (ends b).

(** Lines 21-54: the [try] block.  The selector is handed to the
    collaborator, whose behaviour [b] is arbitrary. *)
Definition worker_body (url quality download_id : string)
    (b : string -> string -> behaviour) : py unit :=
  set_job download_id new_job ;;
  let selector := format_selector quality in
  ydl_download (progress_hook download_id) (b url selector).

(** Lines 18-58. *)
Definition download_video (url quality download_id : string)
    (b : string -> string -> behaviour) : py unit :=
  try_except (worker_body url quality download_id b)
    (on_exception download_id).

End Worker.

Arguments format_selector : simpl never.

(** ** The format catalogue of [get_video_info] *)

(** A stream descriptor of the collaborator: [f.get('ext')] and
    [f.get('height')], [None] when the key is absent or holds [None]. *)
Record descriptor := { ext : option string; height : option Z }.

(** An entry [{'height': h, 'quality': q}] of the catalogue. *)
Record entry := { e_height : Z; quality : string }.

(** [f"{height}p"]. *)
Definition label_of (h : Z) : string := py_str h +:+ "p".

(** The test of line 85: [f.get('ext') == 'mp4' and f.get('height')].
    The second conjunct is a truth test: a height of [0] is falsy. *)
Definition qualifies (f : descriptor) : option Z :=
  match ext f, height f with
  | Some e, Some h =>
      if String.eqb e "mp4" && negb (h =? 0) then Some h else None
  | _, _ => None
  end.

(** One iteration of the loop of lines 84-92, on the pair
    [(formats, seen_heights)]. *)
Definition visit (acc : list entry * gset Z) (f : descriptor)
    : list entry * gset Z :=
  match qualifies f with
  | Some h =>
      if decide (h ∈ acc.2) then acc
      else ((acc.1 ++ [{| e_height := h; quality := label_of h |}])%list,
            {[h]} ∪ acc.2)
  | None => acc
  end.

Definition collect (fs : list descriptor) : list entry :=
  (fold_left visit fs ([], ∅)).1.

(** [formats.sort(key=lambda x: x['height'], reverse=True)]: a stable
    sort into descending order of height. *)
Fixpoint insert_desc (x : entry) (l : list entry) : list entry :=
  match l with
  | [] => [x]
  | y :: l' =>
      if e_height x <? e_height y then y :: insert_desc x l'
      else x :: l
  end.

Definition sort_desc (l : list entry) : list entry :=
  foldr insert_desc [] l.

(** Lines 81-95: the value of ['formats'] in the response. *)
Definition get_video_info_formats (fs : list descriptor) : list entry :=
  sort_desc (collect fs).

(** ** The HTTP handlers and the threads *)

(** [jsonify(body), code]. *)
Inductive response :=
| Json (code : Z) (body : gmap string value).

(** A worker thread: the arguments of [download_video] and how far it
    has run. *)
Inductive phase :=
| Spawned
| Running (selector : string)
| Finished
| Crashed (e : exn).

Record thread := {
  t_url : string;
  t_quality : string;
  t_id : string;
  t_phase : phase
}.

Definition set_phase (p : phase) (t : thread) : thread :=
  {| t_url := t_url t; t_quality := t_quality t; t_id := t_id t;
     t_phase := p |}.

(** The process: the shared dictionary and the threads started so far. *)
Record world := {
  download_progress : registry;
  threads : list thread
}.

Definition initial : world := {| download_progress := ∅; threads := [] |}.

(** Lines 132-136. *)
Definition get_progress (download_id : string) (reg : registry) : response :=
  Json 200 (default {[ "status" := VStr "not_found" ]} (reg !! download_id)).

(** Line 120: [str(int(time.time() * 1000))], for a clock reading
    [now] in seconds.  The product is exact here; the code rounds it to
    a double before truncating, which gives the next millisecond count
    for a reading within a rounding error below a millisecond
    boundary. *)
Definition new_download_id (now : Q) : string :=
  py_str (py_int (now * 1000)%Q).

(** Lines 108-130, for a JSON object [data] with string fields and a
    clock reading [now].  [if not url] holds for an absent and for an
    empty URL.  [thread.start()] only adds the thread: line 21 is run by
    the thread, later.  On such a [data] no statement of the [try]
    block raises, so the clause of line 129 is not entered. *)
Definition download (data : gmap string string) (now : Q) (w : world)
    : response * world :=
  let url := data !! "url" in
  let quality := default "best" (data !! "quality") in
  match url with
  | None | Some "" => (Json 400 {[ "error" := VStr "URL is required" ]}, w)
  | Some url =>
      let download_id := new_download_id now in
      (Json 200 {[ "download_id" := VStr download_id ]},
       {| download_progress := download_progress w;
          threads := (threads w ++
            [{| t_url := url; t_quality := quality; t_id := download_id;
                t_phase := Spawned |}])%list |})
  end.

(** ** The interleaving of handlers and workers

    A label is one atomic action of the process: a request served, or
    one thread running up to its next interaction with the
    collaborator.  A call of the progress hook is one action; the
    lemmas on [preserves] below hold of each single write inside it. *)
Inductive label :=
| Post_download (data : gmap string string) (now : Q)
| Get_progress (download_id : string)
| Thread_start (i : nat)
| Thread_hook (i : nat) (d : event)
| Thread_raise (i : nat) (e : exn)
| Thread_return (i : nat).

Section Steps.

Variable py_float : string -> option pyfloat.

(** The [except] clause of [download_video] ends the thread: normally,
    or with the exception the clause itself raised. *)
Definition handle (i : nat) (t : thread) (e : exn) (reg : registry)
    (ts : list thread) : world :=
  let r := on_exception (t_id t) e reg in
  {| download_progress := r.2;
     threads := <[i := set_phase
                   match r.1 with Ok _ => Finished | Raised e' => Crashed e' end
                   t]> ts |}.

Definition step (l : label) (w : world) : option world :=
  match l with
  | Post_download data now => Some (download data now w).2
  | Get_progress _ => Some w
  | Thread_start i =>
      t ← threads w !! i;
      match t_phase t with
      | Spawned =>
          Some {| download_progress :=
                    (set_job (t_id t) new_job (download_progress w)).2;
                  threads :=
                    <[i := set_phase (Running (format_selector (t_quality t))) t]>
                      (threads w) |}
      | _ => None
      end
  | Thread_hook i d =>
      t ← threads w !! i;
      match t_phase t with
      | Running _ =>
          match progress_hook py_float (t_id t) d (download_progress w) with
          | (Ok _, reg) =>
              Some {| download_progress := reg; threads := threads w |}
          | (Raised e, reg) => Some (handle i t e reg (threads w))
          end
      | _ => None
      end
  | Thread_raise i e =>
      t ← threads w !! i;
      match t_phase t with
      | Running _ => Some (handle i t e (download_progress w) (threads w))
      | _ => None
      end
  | Thread_return i =>
      t ← threads w !! i;
      match t_phase t with
      | Running _ =>
          Some {| download_progress := download_progress w;
                  threads := <[i := set_phase Finished t]> (threads w) |}
      | _ => None
      end
  end.

Fixpoint run (ls : list label) (w : world) : option world :=
  match ls with
  | [] => Some w
  | l :: ls => w' ← step l w; run ls w'
  end.

End Steps.

(** A parser for plain decimal literals such as ["45.3"], on which it
    agrees with [float]; used to instantiate [py_float] in examples. *)
Definition digit_of (c : ascii) : option Z :=
  let n := Z.of_nat (nat_of_ascii c) - 48 in
  if (0 <=? n) && (n <=? 9) then Some n else None.

Fixpoint digits_from (acc : Z) (s : string) : option (Z * string) :=
  match s with
  | EmptyString => Some (acc, EmptyString)
  | String c r =>
      match digit_of c with
      | Some n => digits_from (10 * acc + n) r
      | None => if Ascii.eqb c "."%char then Some (acc, r) else None
      end
  end.

Fixpoint fraction_from (num den : Z) (s : string) : option Q :=
  match s with
  | EmptyString => Some (Qmake num (Z.to_pos den))
  | String c r =>
      match digit_of c with
      | Some n => fraction_from (10 * num + n) (10 * den) r
      | None => None
      end
  end.

Definition decimal_float (s : string) : option pyfloat :=
  match s with
  | EmptyString => None
  | String c _ =>
      match digit_of c with
      | None => None
      | Some _ =>
          '(n, r) ← digits_from 0 s;
          q ← fraction_from n 1 r;
          Some (Finite q)
      end
  end.

(** ** Sample inputs *)

(** Events in the three shapes that the hook distinguishes. *)
Definition ev_bytes (n t : Z) : event :=
  {| status := "downloading"; downloaded_bytes := Some n;
     total_bytes := Some t; _percent_str := None; filename := None |}.

Definition ev_percent (s : string) : event :=
  {| status := "downloading"; downloaded_bytes := None;
     total_bytes := None; _percent_str := Some s; filename := None |}.

Definition ev_finished (p : string) : event :=
  {| status := "finished"; downloaded_bytes := None;
     total_bytes := None; _percent_str := None; filename := Some p |}.

(** A request body with a URL and no quality. *)
Definition sample_request : gmap string string :=
  {[ "url" := "https://example.org/watch?v=1" ]}.

(** ** Vocabulary of the properties *)

(** The field [k] of the job [id], when both exist. *)
Definition field (id k : string) (reg : registry) : option value :=
  reg !! id ≫= (.!! k).

(** [m] keeps [P]: the registry satisfies [P] after [m], whether [m]
    returns or raises, when it did before. *)
Definition preserves {A} (P : registry -> Prop) (m : py A) : Prop :=
  forall reg, P reg -> P (m reg).2.

(** The events a run delivers to the progress hook all satisfy [ok]. *)
Definition hooks_satisfy (ok : event -> Prop) (l : label) : Prop :=
  match l with
  | Thread_hook _ d => ok d
  | _ => True
  end.

(** An event whose figures are those of a percentage: with a known
    total, a byte count between [0] and the total; without one, a
    string that [float] rejects or reads as a value of [[0, 100]]. *)
Definition benign (py_float : string -> option pyfloat) (d : event) : Prop :=
  status d = "downloading" ->
  match total_bytes d with
  | Some (Z.pos _ as t) | Some (Z.neg _ as t) =>
      forall n, downloaded_bytes d = Some n -> 0 <= n <= t
  | Some 0 | None =>
      forall s x, _percent_str d = Some s ->
        py_float (remove_percent s) = Some x -> in_percent_range (VFloat x)
  end.

(** Every job has a [progress] field in [[0, 100]]. *)
Definition progress_in_range (reg : registry) : Prop :=
  forall id r, reg !! id = Some r ->
    exists v, r !! "progress" = Some v /\ in_percent_range v.

(** Every job has one of the three statuses that the worker writes. *)
Definition status_written (reg : registry) : Prop :=
  forall id r, reg !! id = Some r ->
    r !! "status" = Some (VStr "downloading") \/
    r !! "status" = Some (VStr "completed") \/
    r !! "status" = Some (VStr "error").

(** The job of every thread inside [ydl.download] is in the registry. *)
Definition running_jobs_exist (w : world) : Prop :=
  forall i t sel, threads w !! i = Some t -> t_phase t = Running sel ->
    is_Some (download_progress w !! t_id t).

(** The entry that the loop of [get_video_info] builds for a height. *)
Definition entry_of (h : Z) : entry :=
  {| e_height := h; quality := label_of h |}.

(** Deduplication in which the first occurrence wins: an element is
    kept where it first stands, and removed from what follows. *)
Fixpoint first_occurrences (l : list Z) : list Z :=
  match l with
  | [] => []
  | x :: l => x :: filter (fun y => y <> x) (first_occurrences l)
  end.

(** Strictly descending heights. *)
Definition taller (a b : entry) : Prop := e_height b < e_height a.

(** No thread has died of an exception. *)
Definition never_crashed (w : world) : Prop :=
  forall i t e, threads w !! i = Some t -> t_phase t <> Crashed e.

(** The actions of thread [i] when the collaborator behaves as [b]. *)
Definition last_action (i : nat) (fin : ending) : label :=
  match fin with
  | Returns => Thread_return i
  | Raises e => Thread_raise i e
  end.

Definition thread_script (i : nat) (b : behaviour) : list label :=
  Thread_start i :: (Thread_hook i <$> emitted b) ++ [last_action i (ends b)].

(** The identifier that thread [i] works on. *)
Definition thread_id (w : world) (i : nat) : option string :=
  t_id <$> threads w !! i.

(** The actions that can write the [filename] of job [id]: the start
    of a worker on [id] (line 21) and a [finished] event delivered to a
    worker on [id] (line 37). *)
Definition may_set_filename (id : string) (w : world) (l : label) : bool :=
  match l with
  | Thread_start i => bool_decide (thread_id w i = Some id)
  | Thread_hook i d =>
      bool_decide (thread_id w i = Some id)
      && String.eqb (status d) "finished"
  | _ => false
  end.

(** ** The file endpoint: [download_file] *)

(** [os.path.join(a, b)] (posixpath). *)
Definition starts_with_slash (s : string) : bool :=
  match s with
  | String c _ => Ascii.eqb c "/"%char
  | EmptyString => false
  end.

Fixpoint ends_with_slash (s : string) : bool :=
  match s with
  | EmptyString => false
  | String c EmptyString => Ascii.eqb c "/"%char
  | String _ r => ends_with_slash r
  end.

Definition path_join (a b : string) : string :=
  if starts_with_slash b then b
  else if String.eqb a "" || ends_with_slash a then a +:+ b
  else a +:+ "/" +:+ b.

(** The truth value of a stored value, as [not v] reads it. *)
Definition truthy (v : value) : bool :=
  match v with
  | VInt n => negb (n =? 0)
  | VFloat (Finite q) => negb (Qeq_bool q 0)
  | VFloat _ => true
  | VStr s => negb (String.eqb s "")
  end.

(** [progress.get('status') != 'completed'] is false. *)
Definition is_completed (progress : job) : bool :=
  match progress !! "status" with
  | Some (VStr s) => String.eqb s "completed"
  | _ => false
  end.

(** What [download_file] answers: a JSON body, or the file
    [send_file(filepath, as_attachment=True, download_name=...)]. *)
Inductive file_response :=
| Body (r : response)
| Attachment (filepath download_name : string).

Definition not_ready : file_response :=
  Body (Json 404 {[ "error" := VStr "File not ready" ]}).

Definition file_not_found : file_response :=
  Body (Json 404 {[ "error" := VStr "File not found" ]}).

Section Files.

(** The directory made by [tempfile.mkdtemp()] (line 12) and the files
    that [os.path.exists] finds. *)
Variable DOWNLOAD_FOLDER : string.
Variable on_disk : string -> bool.

(** Lines 138-153.  [os.path.join] raises [TypeError] on a filename
    that is not a string. *)
Definition download_file (download_id : string) (reg : registry)
    : outcome file_response :=
  match reg !! download_id with
  | None => Ok not_ready
  | Some progress =>
      if (size progress =? 0)%nat || negb (is_completed progress)
      then Ok not_ready
      else
        match progress !! "filename" with
        | None => Ok file_not_found
        | Some v =>
            if negb (truthy v) then Ok file_not_found
            else
              match v with
              | VStr filename =>
                  let filepath := path_join DOWNLOAD_FOLDER filename in
                  if on_disk filepath then Ok (Attachment filepath filename)
                  else Ok file_not_found
              | _ =>
                  Raised (Exn "TypeError"
                            "expected str, bytes or os.PathLike object")
              end
        end
  end.

End Files.

(** ** The page script: the quality options of [displayVideoInfo] *)

(** An element of [qualities] (line 546): its [quality], and its
    [height], a string in the two entries the script adds and a number
    in those of the server. *)
Record quality_item := {
  item_quality : string;
  item_height : string + Z
}.

Definition item_of_entry (e : entry) : quality_item :=
  {| item_quality := quality e; item_height := inr (e_height e) |}.

(** Line 546. *)
Definition qualities (formats : list entry) : list quality_item :=
  {| item_quality := "best"; item_height := inl "Best" |} ::
  (item_of_entry <$> formats) ++
  [{| item_quality := "worst"; item_height := inl "Worst" |}].

(** Line 551: [typeof format.height === 'string' ? format.height :
    format.quality]. *)
Definition option_text (f : quality_item) : string :=
  match item_height f with
  | inl s => s
  | inr _ => item_quality f
  end.

(** Line 552: [format.quality || format.height], stored as a string. *)
Definition option_quality (f : quality_item) : string :=
  if negb (String.eqb (item_quality f) "") then item_quality f
  else match item_height f with
       | inl s => s
       | inr n => py_str n
       end.

(** [selectedQuality] once the options are shown (line 556) and the
    option of index [k] has been clicked, if any (line 562). *)
Definition selectedQuality (formats : list entry) (click : option nat)
    : option string :=
  option_quality <$> qualities formats !! default 0%nat click.

(** The body that the download button posts (lines 587-590). *)
Definition download_request (url quality : string) : gmap string string :=
  <["url" := url]> (<["quality" := quality]> ∅).

(** ** Further vocabulary *)

(** The worker writes no record but that of [download_id]. *)
Definition same_elsewhere (id : string) (reg reg' : registry) : Prop :=
  forall id', id' <> id -> reg' !! id' = reg !! id'.

(** Whether some event announces a finished file. *)
Definition announces_finished (ds : list event) : bool :=
  existsb (fun d => String.eqb (status d) "finished") ds.

(** Every job came from a thread that has started. *)
Definition jobs_have_threads (w : world) : Prop :=
  forall id, is_Some (download_progress w !! id) ->
    exists i t, threads w !! i = Some t /\ t_id t = id /\ t_phase t <> Spawned.

(** Every stored filename is a string without a slash. *)
Definition filenames_plain (reg : registry) : Prop :=
  forall id r, reg !! id = Some r ->
    exists s, r !! "filename" = Some (VStr s) /\ has_slash s = false.

(** The requests of a run that [download] accepts. *)
Definition accepted (l : label) : bool :=
  match l with
  | Post_download data _ =>
      match data !! "url" with
      | Some u => negb (String.eqb u "")
      | None => false
      end
  | _ => false
  end.

(** The thread that performs an action, if it is a thread's. *)
Definition actor (l : label) : option nat :=
  match l with
  | Thread_start i | Thread_hook i _ | Thread_raise i _ | Thread_return i =>
      Some i
  | Post_download _ _ | Get_progress _ => None
  end.

(** The job of every thread that has started is in the registry. *)
Definition started_jobs_exist (w : world) : Prop :=
  forall i t, threads w !! i = Some t -> t_phase t <> Spawned ->
    is_Some (download_progress w !! t_id t).

(** * Properties *)

(** ** Rounding *)

Lemma floor_spec x : (inject_Z (Qfloor x) <= x /\ x < inject_Z (Qfloor x) + 1)%Q.
Proof.
  split; [apply Qfloor_le|].
  pose proof (Qlt_floor x) as H. rewrite inject_Z_plus in H. exact H.
Qed.


Lemma round_half_even_range x (n : Z) :
  (0 <= x)%Q -> (x <= inject_Z n)%Q -> 0 <= round_half_even x <= n.
Proof.
  intros H0 Hn. destruct (floor_spec x) as [H1 H2].
  assert (Hf0 : (0 <= Qfloor x)%Z).
  { change 0 with (Qfloor 0%Q). by apply Qfloor_resp_le. }
  assert (Hfn : (Qfloor x <= n)%Z).
  { rewrite <- (Qfloor_Z n). by apply Qfloor_resp_le. }
  unfold round_half_even.
  destruct (x - inject_Z (Qfloor x) ?= 1 # 2)%Q eqn:E.
  - apply Qeq_alt in E.
    assert (Qfloor x <> n).
    { intros Heq. rewrite Heq in *. lra. }
    destruct (Z.even (Qfloor x)); lia.
  - lia.
  - apply Qgt_alt in E.
    assert (Qfloor x <> n).
    { intros Heq. rewrite Heq in *. lra. }
    lia.
Qed.

Lemma round_half_even_comp x y : (x == y)%Q -> round_half_even x = round_half_even y.
Proof.
  intros H. unfold round_half_even.
  rewrite (Qfloor_comp _ _ H).
  assert (E : (x - inject_Z (Qfloor y) ?= 1 # 2)%Q = (y - inject_Z (Qfloor y) ?= 1 # 2)%Q).
  { by rewrite H. }
  by rewrite E.
Qed.

Lemma round1_range x : (0 <= x)%Q -> (x <= 100)%Q -> (0 <= round1 x /\ round1 x <= 100)%Q.
Proof.
  intros H0 H1.
  destruct (round_half_even_range (x * 10)%Q 1000) as [A B]; [lra | change (inject_Z 1000) with 1000%Q; lra |].
  unfold round1, Qle; simpl. lia.
Qed.


(** ** Field updates *)

Lemma set_field_some id k v (reg : registry) r :
  reg !! id = Some r ->
  set_field id k v reg = (Ok tt, <[id := <[k := v]> r]> reg).
Proof. intros H. unfold set_field. by rewrite H. Qed.

Lemma set_field_none id k v (reg : registry) :
  reg !! id = None -> set_field id k v reg = (Raised (KeyError id), reg).
Proof. intros H. unfold set_field. by rewrite H. Qed.

Lemma on_exception_some id e (reg : registry) r :
  reg !! id = Some r ->
  on_exception id e reg =
    (Ok tt, <[id := <["error" := VStr (exn_str e)]>
                      (<["status" := VStr "error"]> r)]> reg).
Proof.
  intros H. unfold on_exception, mbind, py_bind.
  rewrite (set_field_some _ _ _ _ r H).
  rewrite (set_field_some _ _ _ _ (<["status" := VStr "error"]> r))
    by apply lookup_insert_eq.
  by rewrite insert_insert_eq.
Qed.

Lemma on_exception_none id e (reg : registry) :
  reg !! id = None -> on_exception id e reg = (Raised (KeyError id), reg).
Proof.
  intros H. unfold on_exception, mbind, py_bind.
  by rewrite set_field_none.
Qed.

(** ** Properties kept by every write *)

Lemma preserves_ret {A} P (a : A) : preserves P (mret a).
Proof. by intros reg H. Qed.

Lemma preserves_raise {A} P e : preserves P (@raise A e).
Proof. by intros reg H. Qed.

Lemma preserves_bind {A B} P (m : py A) (k : A -> py B) :
  preserves P m -> (forall a, preserves P (k a)) -> preserves P (m ≫= k).
Proof.
  intros Hm Hk reg H. unfold mbind, py_bind.
  specialize (Hm reg H). destruct (m reg) as [[a|e] reg']; simpl in *.
  - by apply Hk.
  - done.
Qed.

Lemma preserves_try {A} P (m : py A) h :
  preserves P m -> (forall e, preserves P (h e)) -> preserves P (try_except m h).
Proof.
  intros Hm Hh reg H. unfold try_except.
  specialize (Hm reg H). destruct (m reg) as [[a|e] reg']; simpl in *.
  - done.
  - by apply Hh.
Qed.

Lemma preserves_set_field P id k v :
  (forall (reg : registry) r,
      P reg -> reg !! id = Some r -> P (<[id := <[k := v]> r]> reg)) ->
  preserves P (set_field id k v).
Proof.
  intros HP reg H. unfold set_field.
  destruct (reg !! id) as [r|] eqn:E; simpl; eauto.
Qed.

Lemma preserves_set_job P id r :
  (forall reg : registry, P reg -> P (<[id := r]> reg)) ->
  preserves P (set_job id r).
Proof. intros HP reg H. by apply HP. Qed.

Lemma preserves_call_hooks P hook ds :
  (forall d, d ∈ ds -> preserves P (hook d)) -> preserves P (call_hooks hook ds).
Proof.
  induction ds as [|d ds IH]; intros Hd; simpl.
  - apply preserves_ret.
  - apply preserves_bind.
    + apply Hd. by left.
    + intros _. apply IH. intros d' ?. apply Hd. by right.
Qed.

Create HintDb keep discriminated.
#[local] Hint Resolve preserves_ret preserves_raise preserves_bind
  preserves_try : keep.

(** The writes of the [except] clause and of the hook, one by one. *)
Lemma preserves_on_exception P id e :
  preserves P (set_field id "status" (VStr "error")) ->
  preserves P (set_field id "error" (VStr (exn_str e))) ->
  preserves P (on_exception id e).
Proof. intros Hs He. unfold on_exception. auto with keep. Qed.

Lemma preserves_progress_hook py_float P id d :
  (forall n t, status d = "downloading" -> total_bytes d = Some t -> t <> 0 ->
     downloaded_bytes d = Some n ->
     preserves P (set_field id "progress"
       (VFloat (Finite (round1 (inject_Z n / inject_Z t * 100)%Q))))) ->
  (forall s x, status d = "downloading" ->
     total_bytes d = None \/ total_bytes d = Some 0 ->
     _percent_str d = Some s ->
     py_float (remove_percent s) = Some x ->
     preserves P (set_field id "progress" (VFloat x))) ->
  (status d = "finished" ->
     preserves P (set_field id "status" (VStr "completed")) /\
     preserves P (set_field id "progress" (VInt 100)) /\
     forall p, filename d = Some p ->
       preserves P (set_field id "filename" (VStr (basename p)))) ->
  preserves P (progress_hook py_float id d).
Proof.
  intros Hbytes Hstr Hfin. unfold progress_hook.
  destruct (String.eqb_spec (status d) "downloading") as [Hs|Hs].
  - assert (Hrest : total_bytes d = None \/ total_bytes d = Some 0 ->
      preserves P
      match _percent_str d with
      | Some s =>
          try_except
            match py_float (remove_percent s) with
            | Some x => set_field id "progress" (VFloat x)
            | None => raise (ValueError "could not convert string to float")
            end (fun _ => mret tt)
      | None => mret tt
      end).
    { intros Ht. destruct (_percent_str d) as [s|] eqn:Es; auto with keep.
      apply preserves_try; auto with keep.
      destruct (py_float (remove_percent s)) eqn:Ef; eauto with keep. }
    destruct (total_bytes d) as [[|t|t]|] eqn:Et; try (apply Hrest; auto);
      (destruct (downloaded_bytes d) as [n|] eqn:En;
       [ by eapply Hbytes | auto with keep ]).
  - destruct (String.eqb_spec (status d) "finished") as [Hf|Hf];
      auto with keep.
    destruct (Hfin Hf) as (H1 & H2 & H3).
    apply preserves_bind; auto. intros _.
    apply preserves_bind; auto. intros _.
    destruct (filename d) eqn:Ep; auto with keep.
Qed.

(** No write removes a job. *)
Lemma set_field_keeps_job id id' k v :
  preserves (fun reg : registry => is_Some (reg !! id)) (set_field id' k v).
Proof.
  apply preserves_set_field. intros reg r H Hr.
  destruct (decide (id' = id)) as [->|Hne].
  - rewrite lookup_insert_eq. eauto.
  - by rewrite lookup_insert_ne.
Qed.

Lemma set_job_keeps_job id id' r :
  preserves (fun reg : registry => is_Some (reg !! id)) (set_job id' r).
Proof.
  apply preserves_set_job. intros reg H.
  destruct (decide (id' = id)) as [->|Hne].
  - rewrite lookup_insert_eq. eauto.
  - by rewrite lookup_insert_ne.
Qed.

Lemma hook_keeps_job py_float id id' d :
  preserves (fun reg : registry => is_Some (reg !! id))
    (progress_hook py_float id' d).
Proof.
  apply preserves_progress_hook; intros;
    repeat split; intros; apply set_field_keeps_job.
Qed.

Lemma on_exception_keeps_job id id' e :
  preserves (fun reg : registry => is_Some (reg !! id)) (on_exception id' e).
Proof. apply preserves_on_exception; intros; apply set_field_keeps_job. Qed.

(** When the [try] block of [download_video] stops, the job exists. *)
Lemma worker_body_has_job py_float url quality id b (reg : registry) :
  is_Some ((worker_body py_float url quality id b reg).2 !! id).
Proof.
  unfold worker_body, mbind, py_bind, set_job at 1. simpl.
  assert (H : is_Some ((<[id := new_job]> reg : registry) !! id)).
  { rewrite lookup_insert_eq. eauto. }
  revert H. generalize (<[id := new_job]> reg).
  apply (preserves_bind (fun reg : registry => is_Some (reg !! id))).
  - apply preserves_call_hooks. intros d _. apply hook_keeps_job.
  - intros _. unfold ending_of. destruct (ends _); auto with keep.
Qed.

Lemma download_video_raised py_float url quality id b (reg reg1 : registry) e :
  worker_body py_float url quality id b reg = (Raised e, reg1) ->
  download_video py_float url quality id b reg = on_exception id e reg1.
Proof. intros H. unfold download_video, try_except. by rewrite H. Qed.

Lemma download_video_returned py_float url quality id b (reg reg1 : registry) :
  worker_body py_float url quality id b reg = (Ok tt, reg1) ->
  download_video py_float url quality id b reg = (Ok tt, reg1).
Proof. intros H. unfold download_video, try_except. by rewrite H. Qed.

(** ** The error path (lines 56-58) *)

(** C10.  The [except] clause writes the fields [status] and [error] of
    its own job and nothing else: every other field of that job, in
    particular [progress] and [filename], and every other job, keep
    their values.  When the [try] block raises, this clause is all that
    [download_video] runs afterwards. *)
Theorem error_path_frame id e (reg : registry) :
  (forall k, k <> "status" -> k <> "error" ->
     field id k (on_exception id e reg).2 = field id k reg) /\
  field id "progress" (on_exception id e reg).2 = field id "progress" reg /\
  field id "filename" (on_exception id e reg).2 = field id "filename" reg /\
  (forall id', id' <> id -> (on_exception id e reg).2 !! id' = reg !! id') /\
  (forall py_float url quality b reg0,
     worker_body py_float url quality id b reg0 = (Raised e, reg) ->
     (download_video py_float url quality id b reg0).2
       = (on_exception id e reg).2).
Proof.
  assert (Hk : forall k, k <> "status" -> k <> "error" ->
     field id k (on_exception id e reg).2 = field id k reg).
  { intros k Hs He. unfold field.
    destruct (reg !! id) as [r|] eqn:Hr.
    - rewrite (on_exception_some _ _ _ _ Hr). simpl.
      rewrite lookup_insert_eq. simpl.
      by rewrite !lookup_insert_ne.
    - rewrite (on_exception_none _ _ _ Hr). simpl. by rewrite Hr. }
  split; [exact Hk|]. split; [by apply Hk|]. split; [by apply Hk|]. split.
  - intros id' Hne. destruct (reg !! id) as [r|] eqn:Hr.
    + rewrite (on_exception_some _ _ _ _ Hr). simpl.
      by rewrite lookup_insert_ne.
    + by rewrite (on_exception_none _ _ _ Hr).
  - intros py_float url quality b reg0 H.
    by rewrite (download_video_raised _ _ _ _ _ _ _ _ H).
Qed.

Lemma error_path_frame_witness :
  let reg : registry :=
    {[ "1700" := <["progress" := VFloat (Finite (333 # 10))]> new_job ]} in
  field "1700" "progress"
    (on_exception "1700" (Exn "DownloadError" "network down") reg).2
  = Some (VFloat (Finite (333 # 10))).
Proof.
  intros reg.
  rewrite (proj1 (error_path_frame "1700" (Exn "DownloadError" "network down") reg)
             "progress") by discriminate.
  vm_compute. reflexivity.
Defined.

(** ** The progress endpoint (lines 132-136) *)

(** C9.  For an identifier that the registry does not hold,
    [get_progress] answers with HTTP 200 and the body
    [{"status": "not_found"}].  [get_progress] is a total function of the
    identifier and the registry: it has no exceptional outcome. *)
Theorem progress_of_unknown_id id (reg : registry) :
  reg !! id = None ->
  get_progress id reg = Json 200 {[ "status" := VStr "not_found" ]}.
Proof. intros H. unfold get_progress. by rewrite H. Qed.

Lemma progress_of_unknown_id_witness :
  get_progress "42" (download_progress initial)
  = Json 200 {[ "status" := VStr "not_found" ]}.
Proof. apply (progress_of_unknown_id "42" (download_progress initial)). reflexivity. Defined.

Lemma progress_of_known_id id (reg : registry) r :
  reg !! id = Some r -> get_progress id reg = Json 200 r.
Proof. intros H. unfold get_progress. by rewrite H. Qed.

(** ** The quality selector (lines 40-45 and 114) *)

Lemma format_selector_other h :
  h <> "best" -> h <> "worst" ->
  format_selector h = "best[height<=" +:+ h +:+ "][ext=mp4]".
Proof.
  intros Hb Hw. unfold format_selector.
  destruct (String.eqb_spec h "best"); [done|].
  by destruct (String.eqb_spec h "worst").
Qed.


(** ** Invariants of the interleaved process *)

(** Case analysis on an enabled action. *)
Ltac step_cases H :=
  unfold step in H;
  repeat match type of H with
  | context [threads ?w !! ?i] =>
      destruct (threads w !! i) as [?t|] eqn:?Ht; simpl in H; [|discriminate]
  | context [t_phase ?t] => destruct (t_phase t) eqn:?Hp; try discriminate
  | context [progress_hook ?f ?id ?d ?reg] =>
      destruct (progress_hook f id d reg) as [[[]|?e] ?reg'] eqn:?Hh
  end; simplify_eq; simpl in *.

Section Runs.

Variable py_float : string -> option pyfloat.

Lemma download_registry data now w :
  download_progress (download data now w).2 = download_progress w.
Proof.
  unfold download. destruct (data !! "url") as [[|c u]|]; reflexivity.
Qed.

(** A property of the registry kept by the three writers is kept by
    every action of the process. *)
Lemma step_registry (P : registry -> Prop) l w w' :
  (forall id, preserves P (set_job id new_job)) ->
  (forall id e, preserves P (on_exception id e)) ->
  (forall i d id, l = Thread_hook i d ->
     preserves P (progress_hook py_float id d)) ->
  step py_float l w = Some w' ->
  P (download_progress w) -> P (download_progress w').
Proof.
  intros Hnew Hexc Hhook Hstep HP.
  destruct l; step_cases Hstep.
  - by rewrite download_registry.
  - done.
  - by apply (Hnew (t_id t)).
  - pose proof (Hhook _ _ (t_id t) eq_refl _ HP) as H. by rewrite Hh in H.
  - apply (Hexc (t_id t) e).
    pose proof (Hhook _ _ (t_id t) eq_refl _ HP) as H. by rewrite Hh in H.
  - by apply (Hexc (t_id t) e).
  - done.
Qed.

Lemma run_registry (P : registry -> Prop) (ok : event -> Prop) :
  (forall id, preserves P (set_job id new_job)) ->
  (forall id e, preserves P (on_exception id e)) ->
  (forall id d, ok d -> preserves P (progress_hook py_float id d)) ->
  forall ls w w',
    Forall (hooks_satisfy ok) ls ->
    run py_float ls w = Some w' ->
    P (download_progress w) -> P (download_progress w').
Proof.
  intros Hnew Hexc Hhook ls. induction ls as [|l ls IH]; intros w w' Hok Hrun HP.
  - by simplify_eq/=.
  - simpl in Hrun. destruct (step py_float l w) as [w1|] eqn:Hstep; [|done].
    simpl in Hrun. inversion Hok as [|? ? Hl Hls]; subst.
    apply (IH w1 w' Hls Hrun).
    eapply step_registry; eauto.
    intros i d id -> . by apply Hhook.
Qed.

End Runs.

(** ** The range of [progress] *)

Lemma ratio_in_range n t :
  t <> 0 -> 0 <= n <= t ->
  in_percent_range (VFloat (Finite (round1 (inject_Z n / inject_Z t * 100)%Q))).
Proof.
  intros Ht [Hn Hnt]. unfold in_percent_range. simpl.
  assert (H0 : (0 < inject_Z t)%Q).
  { change 0%Q with (inject_Z 0). rewrite <- Zlt_Qlt. lia. }
  assert (H1 : (0 <= inject_Z n)%Q).
  { change 0%Q with (inject_Z 0). by rewrite <- Zle_Qle. }
  assert (H2 : (inject_Z n <= inject_Z t)%Q) by by rewrite <- Zle_Qle.
  assert (Hq0 : (0 <= inject_Z n / inject_Z t)%Q).
  { apply Qle_shift_div_l; [done|]. lra. }
  assert (Hq1 : (inject_Z n / inject_Z t <= 1)%Q).
  { apply Qle_shift_div_r; [done|]. lra. }
  apply round1_range; lra.
Qed.

Lemma set_field_range id k v :
  (k = "progress" -> in_percent_range v) ->
  preserves progress_in_range (set_field id k v).
Proof.
  intros Hv. apply preserves_set_field. intros reg r HP Hr id' r' Hl.
  destruct (decide (id = id')) as [->|Hne].
  - rewrite lookup_insert_eq in Hl. simplify_eq.
    destruct (decide (k = "progress")) as [->|Hk].
    + exists v. rewrite lookup_insert_eq. auto.
    + rewrite lookup_insert_ne by done. by apply (HP id').
  - rewrite lookup_insert_ne in Hl by done. by apply (HP id').
Qed.

Lemma new_job_range id : preserves progress_in_range (set_job id new_job).
Proof.
  apply preserves_set_job. intros reg HP id' r' Hl.
  destruct (decide (id = id')) as [->|Hne].
  - rewrite lookup_insert_eq in Hl. simplify_eq.
    exists (VInt 0). split; [reflexivity|].
    unfold in_percent_range. simpl. split; discriminate.
  - rewrite lookup_insert_ne in Hl by done. by apply (HP id').
Qed.

Lemma on_exception_range id e :
  preserves progress_in_range (on_exception id e).
Proof.
  apply preserves_on_exception; intros; apply set_field_range; discriminate.
Qed.

Lemma hook_range py_float id d :
  benign py_float d -> preserves progress_in_range (progress_hook py_float id d).
Proof.
  intros Hb. apply preserves_progress_hook.
  - intros n t Hs Ht Hne Hn. apply set_field_range. intros _.
    specialize (Hb Hs). rewrite Ht in Hb.
    destruct t; [done| |]; apply ratio_in_range; auto.
  - intros s x Hs Ht Hp Hx. apply set_field_range. intros _.
    specialize (Hb Hs). destruct Ht as [Ht|Ht]; rewrite Ht in Hb; eauto.
  - intros _. repeat split; intros; apply set_field_range; try discriminate.
    intros _. unfold in_percent_range. simpl. split; discriminate.
Qed.

(** C3, as the code has it.  Take any interleaving of requests and
    worker actions from the start of the process in which every event
    delivered to a progress hook is benign: with a known total, its byte
    count lies between [0] and the total; without one, its percentage
    string is rejected by [float] or read as a value of [[0, 100]].
    Then at every point of the run, [get_progress] answers, for every
    identifier, either [not_found] or a record whose [progress] lies in
    [[0, 100]]. *)
Theorem progress_in_range_of_benign_events py_float ls :
  Forall (hooks_satisfy (benign py_float)) ls ->
  forall n w,
    run py_float (take n ls) initial = Some w ->
    forall id,
      get_progress id (download_progress w)
        = Json 200 {[ "status" := VStr "not_found" ]} \/
      exists r v,
        get_progress id (download_progress w) = Json 200 r /\
        r !! "progress" = Some v /\ in_percent_range v.
Proof.
  intros Hok n w Hrun id.
  assert (HP : progress_in_range (download_progress w)).
  { eapply (run_registry py_float progress_in_range (benign py_float));
      [apply new_job_range | apply on_exception_range
      | intros; by apply hook_range
      | apply Forall_take, Hok | exact Hrun | ].
    intros ? ? Hl. simpl in Hl. by rewrite lookup_empty in Hl. }
  unfold get_progress.
  destruct (download_progress w !! id) as [r|] eqn:Hr; simpl.
  - right. destruct (HP id r Hr) as (v & Hv & Hin). by exists r, v.
  - by left.
Qed.

Lemma progress_in_range_of_benign_events_witness :
  exists w,
    run decimal_float
      (take 5 [Post_download sample_request (17 # 10); Thread_start 0;
               Thread_hook 0 (ev_bytes 1 3); Thread_hook 0 (ev_percent "45.3%");
               Thread_hook 0 (ev_finished "/tmp/dl/clip.mp4")]) initial
      = Some w /\
    (get_progress "1700" (download_progress w)
       = Json 200 {[ "status" := VStr "not_found" ]} \/
     exists r v,
       get_progress "1700" (download_progress w) = Json 200 r /\
       r !! "progress" = Some v /\ in_percent_range v).
Proof.
  assert (Hok : Forall (hooks_satisfy (benign decimal_float))
            [Post_download sample_request (17 # 10); Thread_start 0;
             Thread_hook 0 (ev_bytes 1 3); Thread_hook 0 (ev_percent "45.3%");
             Thread_hook 0 (ev_finished "/tmp/dl/clip.mp4")]).
  { repeat first [apply List.Forall_cons | apply List.Forall_nil];
      unfold hooks_satisfy, benign; simpl; try done.
    - intros _ k [= <-]. lia.
    - intros _ s' x' [= <-] Hx. vm_compute in Hx. injection Hx as <-.
      unfold in_percent_range. simpl. split; discriminate. }
  eexists. split; [vm_compute; reflexivity|].
  apply (progress_in_range_of_benign_events decimal_float _ Hok 5).
  vm_compute. reflexivity.
Defined.

(** C3 fails as stated: the hook stores what the event gives, without
    clamping.  A worker that receives 200 bytes downloaded out of a
    total of 100 stores the progress 200.0 while the job is still
    [downloading]. *)
Lemma progress_out_of_range :
  (w ← run decimal_float
         [Post_download sample_request (17 # 10); Thread_start 0;
          Thread_hook 0 (ev_bytes 200 100)] initial;
   Some (field "1700" "status" (download_progress w),
         field "1700" "progress" (download_progress w)))
  = Some (Some (VStr "downloading"), Some (VFloat (Finite (2000 # 10)))) /\
  ~ in_percent_range (VFloat (Finite (2000 # 10))).
Proof.
  split; [vm_compute; reflexivity|].
  unfold in_percent_range. simpl. intros [_ H]. by apply H.
Qed.

(** ** What [/download] does to the registry (lines 108-127) *)

Lemma download_accepted data now w url :
  data !! "url" = Some url -> url <> "" ->
  download data now w =
    (Json 200 {[ "download_id" := VStr (new_download_id now) ]},
     {| download_progress := download_progress w;
        threads := threads w ++
          [{| t_url := url; t_quality := default "best" (data !! "quality");
              t_id := new_download_id now; t_phase := Spawned |}] |}).
Proof.
  intros Hu Hne. unfold download. rewrite Hu.
  destruct url; [done|reflexivity].
Qed.

(** The first action of the thread that a request has just spawned. *)
Lemma start_after_download py_float data now w url :
  data !! "url" = Some url -> url <> "" ->
  step py_float (Thread_start (length (threads w))) (download data now w).2 =
    Some {| download_progress :=
              <[new_download_id now := new_job]> (download_progress w);
            threads := threads w ++
              [{| t_url := url;
                  t_quality := default "best" (data !! "quality");
                  t_id := new_download_id now;
                  t_phase :=
                    Running (format_selector (default "best" (data !! "quality")))
               |}] |}.
Proof.
  intros Hu Hne. rewrite (download_accepted _ _ _ _ Hu Hne).
  unfold step. simpl. rewrite list_lookup_middle by done. simpl.
  unfold set_job, set_phase. simpl. do 2 f_equal.
  rewrite insert_app_r_alt by done. by rewrite Nat.sub_diag.
Qed.

Lemma set_field_status id k v :
  (k = "status" ->
   v = VStr "downloading" \/ v = VStr "completed" \/ v = VStr "error") ->
  preserves status_written (set_field id k v).
Proof.
  intros Hv. apply preserves_set_field. intros reg r HP Hr id' r' Hl.
  destruct (decide (id = id')) as [->|Hne].
  - rewrite lookup_insert_eq in Hl. simplify_eq.
    destruct (decide (k = "status")) as [->|Hk].
    + rewrite lookup_insert_eq. destruct (Hv eq_refl) as [->|[->| ->]]; auto.
    + rewrite lookup_insert_ne by done. by apply (HP id').
  - rewrite lookup_insert_ne in Hl by done. by apply (HP id').
Qed.

Lemma run_status_written py_float ls w :
  run py_float ls initial = Some w -> status_written (download_progress w).
Proof.
  intros Hrun.
  eapply (run_registry py_float status_written (fun _ => True));
    [| | | | exact Hrun | ].
  - intros id. apply preserves_set_job. intros reg HP id' r' Hl.
    destruct (decide (id = id')) as [->|Hne].
    + rewrite lookup_insert_eq in Hl. simplify_eq. by left.
    + rewrite lookup_insert_ne in Hl by done. by apply (HP id').
  - intros id e. apply preserves_on_exception;
      apply set_field_status; [auto|discriminate].
  - intros id d _. apply preserves_progress_hook; intros;
      repeat split; intros; apply set_field_status; auto; discriminate.
  - clear. induction ls as [|[] ls IH]; constructor; simpl; auto.
  - intros ? ? Hl. simpl in Hl. by rewrite lookup_empty in Hl.
Qed.

(** ** The filename of a job (lines 34-37) *)

Lemma set_field_other_field id k o id' k' v :
  id' <> id \/ k' <> k ->
  preserves (fun reg => field id k reg = o) (set_field id' k' v).
Proof.
  intros Hne. apply preserves_set_field. intros reg r HP Hr.
  unfold field in *. destruct (decide (id' = id)) as [->|Hid].
  - rewrite lookup_insert_eq. rewrite Hr in HP. simpl in *.
    destruct Hne as [?|Hk]; [done|]. by rewrite lookup_insert_ne.
  - by rewrite lookup_insert_ne.
Qed.

Lemma on_exception_other_field id k o id' e :
  id' <> id \/ (k <> "status" /\ k <> "error") ->
  preserves (fun reg => field id k reg = o) (on_exception id' e).
Proof.
  intros H. apply preserves_on_exception; apply set_field_other_field;
    destruct H as [?|[? ?]]; auto.
Qed.

Lemma finished_event py_float id d p (reg : registry) r :
  reg !! id = Some r -> status d = "finished" -> filename d = Some p ->
  progress_hook py_float id d reg =
    (Ok tt, <[id := <["filename" := VStr (basename p)]>
                      (<["progress" := VInt 100]>
                         (<["status" := VStr "completed"]> r))]> reg).
Proof.
  intros Hr Hs Hp. unfold progress_hook. rewrite Hs, Hp. simpl.
  unfold mbind, py_bind.
  rewrite (set_field_some _ _ _ _ r Hr).
  erewrite set_field_some by apply lookup_insert_eq.
  erewrite set_field_some by apply lookup_insert_eq.
  by rewrite !insert_insert_eq.
Qed.

Lemma step_keeps_filename py_float l w w' id :
  step py_float l w = Some w' ->
  may_set_filename id w l = false ->
  field id "filename" (download_progress w')
    = field id "filename" (download_progress w).
Proof.
  intros Hstep Hmay.
  set (P := fun reg => field id "filename" reg
                       = field id "filename" (download_progress w)).
  change (P (download_progress w')).
  assert (HP : P (download_progress w)) by done.
  assert (Hexc : forall e id', preserves P (on_exception id' e)).
  { intros e id'. apply on_exception_other_field. right. by split. }
  assert (Hhook : forall i d t, l = Thread_hook i d -> threads w !! i = Some t ->
            preserves P (progress_hook py_float (t_id t) d)).
  { intros i d t -> Ht. simpl in Hmay. unfold thread_id in Hmay.
    rewrite Ht in Hmay. simpl in Hmay.
    apply preserves_progress_hook; intros.
    - apply set_field_other_field. by right.
    - apply set_field_other_field. by right.
    - assert (Hid : t_id t <> id).
      { intros <-. rewrite bool_decide_eq_true_2 in Hmay by done.
        simpl in Hmay. by apply String.eqb_neq in Hmay. }
      repeat split; intros; apply set_field_other_field; by left. }
  destruct l; step_cases Hstep.
  - by rewrite download_registry.
  - done.
  - unfold thread_id in Hmay. rewrite Ht in Hmay. simpl in Hmay.
    apply bool_decide_eq_false in Hmay.
    unfold P, field. rewrite lookup_insert_ne; [done|]. congruence.
  - pose proof (Hhook _ _ _ eq_refl Ht _ HP) as H. by rewrite Hh in H.
  - apply Hexc.
    pose proof (Hhook _ _ _ eq_refl Ht _ HP) as H. by rewrite Hh in H.
  - by apply Hexc.
  - done.
Qed.

(** C7, as the code has it.  On a [finished] event the hook writes
    status [completed], progress [100] and the base name of the
    reported path as filename, in that one call.  After that the
    filename of a job changes by no action other than a further
    [finished] event delivered to a worker on that identifier, or the
    start of a worker on that identifier: requests, [downloading]
    events, the events of other jobs and the [except] clause leave it as
    it is.  Polling changes nothing at all. *)
Theorem filename_written_by_finished_events py_float :
  (forall id d p (reg : registry) r,
     reg !! id = Some r -> status d = "finished" -> filename d = Some p ->
     progress_hook py_float id d reg =
       (Ok tt, <[id := <["filename" := VStr (basename p)]>
                         (<["progress" := VInt 100]>
                            (<["status" := VStr "completed"]> r))]> reg)) /\
  (forall l w w' id,
     step py_float l w = Some w' ->
     may_set_filename id w l = false ->
     field id "filename" (download_progress w')
       = field id "filename" (download_progress w)) /\
  (forall ids w, run py_float (Get_progress <$> ids) w = Some w).
Proof.
  split; [apply finished_event|]. split; [apply step_keeps_filename|].
  intros ids w. induction ids as [|id ids IH]; simpl; [done|]. exact IH.
Qed.

Lemma filename_written_by_finished_events_witness :
  exists w',
    step decimal_float (Thread_hook 0 (ev_bytes 1 2))
      {| download_progress :=
           {[ "1700" := <["filename" := VStr "clip.mp4"]> new_job ]};
         threads := [{| t_url := "u"; t_quality := "best"; t_id := "1700";
                        t_phase := Running "best[ext=mp4]" |}] |}
      = Some w' /\
    field "1700" "filename" (download_progress w') = Some (VStr "clip.mp4").
Proof.
  eexists. split; [vm_compute; reflexivity|].
  rewrite (proj1 (proj2 (filename_written_by_finished_events decimal_float))
             (Thread_hook 0 (ev_bytes 1 2))
             {| download_progress :=
                  {[ "1700" := <["filename" := VStr "clip.mp4"]> new_job ]};
                threads := [{| t_url := "u"; t_quality := "best";
                               t_id := "1700";
                               t_phase := Running "best[ext=mp4]" |}] |}
             _ "1700"); [reflexivity | vm_compute; reflexivity | reflexivity].
Defined.

(** C7 fails as stated: the hook does not look at the status it
    overwrites.  A second [finished] event (a playlist delivers one per
    file) replaces the filename of a completed job, and a [downloading]
    event that follows completion replaces its progress. *)
Lemma filename_overwritten_after_completion :
  (w ← run decimal_float
         [Post_download sample_request (17 # 10); Thread_start 0;
          Thread_hook 0 (ev_finished "/tmp/dl/a.mp4")] initial;
   Some (field "1700" "status" (download_progress w),
         field "1700" "filename" (download_progress w)))
  = Some (Some (VStr "completed"), Some (VStr "a.mp4")) /\
  (w ← run decimal_float
         [Post_download sample_request (17 # 10); Thread_start 0;
          Thread_hook 0 (ev_finished "/tmp/dl/a.mp4");
          Thread_hook 0 (ev_finished "/tmp/dl/b.mp4")] initial;
   Some (field "1700" "status" (download_progress w),
         field "1700" "filename" (download_progress w)))
  = Some (Some (VStr "completed"), Some (VStr "b.mp4")) /\
  (w ← run decimal_float
         [Post_download sample_request (17 # 10); Thread_start 0;
          Thread_hook 0 (ev_finished "/tmp/dl/a.mp4");
          Thread_hook 0 (ev_bytes 1 2)] initial;
   Some (field "1700" "status" (download_progress w),
         field "1700" "progress" (download_progress w)))
  = Some (Some (VStr "completed"), Some (VFloat (Finite (500 # 10)))).
Proof. repeat split; vm_compute; reflexivity. Qed.

(** ** Download identifiers (line 120) *)

Lemma new_download_id_eq now1 now2 :
  new_download_id now1 = new_download_id now2 <->
  py_int (now1 * 1000)%Q = py_int (now2 * 1000)%Q.
Proof.
  unfold new_download_id, py_str. split; [|by intros ->].
  apply (inj pretty).
Qed.

(** C2 does not hold of the code, which means to generate a unique
    identifier (the comment of line 119) but takes the clock reading in
    whole milliseconds: two requests served within the same millisecond,
    here at 1700000000.0002 s and 1700000000.0007 s, get the same
    identifier.  Their two workers then share one record: the second
    one, when it starts, resets the record that the first has
    completed. *)
Theorem same_millisecond_same_id :
  (download sample_request (17000000000002 # 10000) initial).1
    = Json 200 {[ "download_id" := VStr "1700000000000" ]} /\
  (download sample_request (17000000000007 # 10000)
     (download sample_request (17000000000002 # 10000) initial).2).1
    = Json 200 {[ "download_id" := VStr "1700000000000" ]} /\
  (w ← run decimal_float
         [Post_download sample_request (17000000000002 # 10000);
          Post_download sample_request (17000000000007 # 10000);
          Thread_start 0; Thread_hook 0 (ev_finished "/tmp/dl/a.mp4");
          Thread_return 0] initial;
   Some (field "1700000000000" "status" (download_progress w),
         field "1700000000000" "filename" (download_progress w)))
  = Some (Some (VStr "completed"), Some (VStr "a.mp4")) /\
  (w ← run decimal_float
         [Post_download sample_request (17000000000002 # 10000);
          Post_download sample_request (17000000000007 # 10000);
          Thread_start 0; Thread_hook 0 (ev_finished "/tmp/dl/a.mp4");
          Thread_return 0; Thread_start 1] initial;
   Some (field "1700000000000" "status" (download_progress w),
         field "1700000000000" "filename" (download_progress w)))
  = Some (Some (VStr "downloading"), Some (VStr "")).
Proof. repeat split; vm_compute; reflexivity. Qed.

(** ** Progress events (lines 24-33) *)

Lemma round1_comp x y : (x == y)%Q -> round1 x = round1 y.
Proof.
  intros H. unfold round1. f_equal. apply round_half_even_comp. by rewrite H.
Qed.

Lemma bytes_event py_float id d n t (reg : registry) r :
  reg !! id = Some r -> status d = "downloading" ->
  total_bytes d = Some t -> t <> 0 -> downloaded_bytes d = Some n ->
  progress_hook py_float id d reg =
    (Ok tt,
     <[id := <["progress" :=
                VFloat (Finite (round1 (inject_Z n / inject_Z t * 100)%Q))]> r]>
       reg).
Proof.
  intros Hr Hs Ht Hne Hn. unfold progress_hook. rewrite Hs, Ht, Hn. simpl.
  destruct t; [done| |]; by rewrite (set_field_some _ _ _ _ r Hr).
Qed.





(** ** The format catalogue (lines 80-95) *)

Lemma qualifies_spec f h :
  qualifies f = Some h <->
  ext f = Some "mp4" /\ height f = Some h /\ h <> 0.
Proof.
  unfold qualifies. destruct (ext f) as [e|], (height f) as [h'|];
    try (split; [done | intros (He & Hh & _); discriminate]).
  destruct (String.eqb_spec e "mp4") as [->|He]; simpl.
  - destruct (Z.eqb_spec h' 0) as [->|Hz]; simpl.
    + split; [done|]. intros (_ & [= <-] & ?). done.
    + split; [by intros [= <-]|]. by intros (_ & [= <-] & _).
  - split; [done|]. intros ([= ->] & _). done.
Qed.

Lemma filter_filter_implied (P Q : Z -> Prop)
    `{!forall x, Decision (P x)} `{!forall x, Decision (Q x)} (l : list Z) :
  (forall x, P x -> Q x) -> filter P (filter Q l) = filter P l.
Proof.
  intros HPQ. induction l as [|x l IH]; [done|].
  rewrite (filter_cons Q). destruct (decide (Q x)) as [Hq|Hq].
  - rewrite !filter_cons. destruct (decide (P x)); by rewrite IH.
  - rewrite IH, filter_cons. destruct (decide (P x)) as [Hp|]; [|done].
    by destruct Hq; apply HPQ.
Qed.

Lemma filter_not_in_union (h : Z) (seen : gset Z) (l : list Z) :
  filter (fun x => x ∉ {[h]} ∪ seen) l
  = filter (fun x => x ∉ seen) (filter (fun y => y <> h) l).
Proof.
  induction l as [|x l IH]; [done|].
  rewrite (filter_cons (fun y => y <> h)), filter_cons.
  destruct (decide (x ∉ {[h]} ∪ seen)) as [Hx|Hx];
    destruct (decide (x <> h)) as [Hh|Hh].
  - rewrite filter_cons. destruct (decide (x ∉ seen)) as [|Hs].
    + by rewrite IH.
    + destruct Hs. intros H. apply Hx, elem_of_union. by right.
  - destruct Hx. apply dec_stable in Hh.
    apply elem_of_union. left. by apply elem_of_singleton.
  - rewrite filter_cons. destruct (decide (x ∉ seen)) as [Hs|Hs].
    + destruct Hx. intros [H%elem_of_singleton|H]%elem_of_union; done.
    + exact IH.
  - exact IH.
Qed.

(** The loop with its set of seen heights computes the first
    occurrences of the qualifying heights. *)
Lemma fold_visit fs acc (seen : gset Z) :
  (fold_left visit fs (acc, seen)).1
  = (acc ++ (entry_of <$>
               filter (fun x => x ∉ seen)
                 (first_occurrences (omap qualifies fs))))%list.
Proof.
  revert acc seen. induction fs as [|f fs IH]; intros acc seen; simpl.
  - by rewrite app_nil_r.
  - unfold visit at 2. destruct (qualifies f) as [h|] eqn:Hq; simpl.
    + destruct (decide (h ∈ seen)) as [Hin|Hin].
      * rewrite IH. f_equal. f_equal.
        rewrite filter_cons. destruct (decide (h ∉ seen)); [done|].
        symmetry. apply filter_filter_implied. intros x Hx ->. done.
      * rewrite IH. rewrite <- app_assoc. f_equal. simpl.
        rewrite filter_cons. destruct (decide (h ∉ seen)); [|done].
        rewrite fmap_cons. f_equal. f_equal. apply filter_not_in_union.
    + by rewrite IH.
Qed.

Lemma elem_of_first_occurrences x l : x ∈ first_occurrences l <-> x ∈ l.
Proof.
  induction l as [|y l IH]; simpl; [done|].
  rewrite !elem_of_cons, list_elem_of_filter, IH.
  destruct (decide (x = y)); tauto.
Qed.

Lemma NoDup_first_occurrences l : NoDup (first_occurrences l).
Proof.
  induction l as [|y l IH]; simpl; constructor.
  - rewrite list_elem_of_filter. by intros [H _].
  - by apply NoDup_filter.
Qed.

Lemma collect_first_occurrences fs :
  collect fs = entry_of <$> first_occurrences (omap qualifies fs).
Proof.
  unfold collect. rewrite fold_visit. simpl. f_equal.
  induction (first_occurrences (omap qualifies fs)) as [|x l IH]; [done|].
  rewrite filter_cons. destruct (decide (x ∉ (∅ : gset Z))) as [|H].
  - by rewrite IH.
  - destruct H. apply not_elem_of_empty.
Qed.

Lemma insert_desc_perm x l : insert_desc x l ≡ₚ x :: l.
Proof.
  induction l as [|y l IH]; simpl; [done|].
  destruct (e_height x <? e_height y); [|done].
  rewrite IH. apply perm_swap.
Qed.

Lemma sort_desc_perm l : sort_desc l ≡ₚ l.
Proof.
  induction l as [|x l IH]; simpl; [done|].
  by rewrite insert_desc_perm, IH.
Qed.

(** Sortedness in the weak sense: no entry is followed by a taller one. *)
Lemma insert_desc_sorted x l :
  StronglySorted (fun a b => e_height b <= e_height a) l ->
  StronglySorted (fun a b => e_height b <= e_height a) (insert_desc x l).
Proof.
  induction 1 as [|y l Hl IH Hy]; simpl.
  - repeat constructor.
  - destruct (Z.ltb_spec (e_height x) (e_height y)) as [Hlt|Hge].
    + constructor; [exact IH|].
      rewrite insert_desc_perm. constructor; [lia|done].
    + constructor; [by constructor|].
      constructor; [lia|].
      eapply Forall_impl; [exact Hy|]. simpl. intros z Hz. lia.
Qed.

Lemma sort_desc_sorted l :
  StronglySorted (fun a b => e_height b <= e_height a) (sort_desc l).
Proof.
  induction l as [|x l IH]; simpl; [constructor|by apply insert_desc_sorted].
Qed.

Lemma sorted_strictly l :
  NoDup (e_height <$> l) ->
  StronglySorted (fun a b => e_height b <= e_height a) l ->
  StronglySorted taller l.
Proof.
  induction l as [|x l IH]; intros Hnd Hs; [constructor|].
  rewrite fmap_cons in Hnd. apply NoDup_cons in Hnd as [Hx Hnd].
  apply StronglySorted_inv in Hs as [Hs Hall].
  constructor; [by apply IH|].
  apply Forall_forall. intros y Hy. unfold taller.
  rewrite Forall_forall in Hall. specialize (Hall y Hy).
  assert (e_height y <> e_height x); [|lia].
  intros E. apply Hx. rewrite <- E. by apply list_elem_of_fmap_2.
Qed.

Lemma heights_of_entries (l : list Z) : e_height <$> (entry_of <$> l) = l.
Proof. induction l as [|h l IH]; [done|]. rewrite !fmap_cons. by f_equal. Qed.

Lemma NoDup_collect_heights fs : NoDup (e_height <$> collect fs).
Proof.
  rewrite collect_first_occurrences, heights_of_entries.
  apply NoDup_first_occurrences.
Qed.

Lemma elem_of_collect e fs :
  e ∈ collect fs <->
  exists f h, f ∈ fs /\ ext f = Some "mp4" /\ height f = Some h /\ h <> 0 /\
              e = {| e_height := h; quality := py_str h +:+ "p" |}.
Proof.
  rewrite collect_first_occurrences, list_elem_of_fmap. split.
  - intros (h & -> & Hh).
    apply (proj1 (elem_of_first_occurrences _ _)) in Hh.
    apply (proj1 (list_elem_of_omap _ _ _)) in Hh as (f & Hf & Hq).
    apply qualifies_spec in Hq as (? & ? & ?). by exists f, h.
  - intros (f & h & Hf & He & Hh & Hz & ->). exists h. split; [done|].
    apply (proj2 (elem_of_first_occurrences _ _)).
    apply (proj2 (list_elem_of_omap _ _ _)).
    exists f. split; [done|]. by apply qualifies_spec.
Qed.

(** C5, as the code has it.  The catalogue keeps the descriptors whose
    container is [mp4] and whose height is present and not zero (line 85
    tests the height for truth), takes each height once, at its first
    occurrence, labels the entry of height [h] with [h] in decimal
    followed by [p], and orders the entries by strictly descending
    height.  Heights 720, 1080, 720, 480 give 1080p, 720p, 480p. *)
Theorem format_catalogue fs :
  collect fs = entry_of <$> first_occurrences (omap qualifies fs) /\
  get_video_info_formats fs ≡ₚ collect fs /\
  (forall e, e ∈ get_video_info_formats fs <->
     exists f h, f ∈ fs /\ ext f = Some "mp4" /\ height f = Some h /\
                 h <> 0 /\
                 e = {| e_height := h; quality := py_str h +:+ "p" |}) /\
  NoDup (e_height <$> get_video_info_formats fs) /\
  StronglySorted taller (get_video_info_formats fs) /\
  get_video_info_formats
    [{| ext := Some "mp4"; height := Some 720 |};
     {| ext := Some "mp4"; height := Some 1080 |};
     {| ext := Some "mp4"; height := Some 720 |};
     {| ext := Some "mp4"; height := Some 480 |}]
  = [{| e_height := 1080; quality := "1080p" |};
     {| e_height := 720; quality := "720p" |};
     {| e_height := 480; quality := "480p" |}].
Proof.
  assert (Hperm : get_video_info_formats fs ≡ₚ collect fs) by apply sort_desc_perm.
  assert (Hnd : NoDup (e_height <$> get_video_info_formats fs)).
  { rewrite Hperm. apply NoDup_collect_heights. }
  split; [apply collect_first_occurrences|]. split; [exact Hperm|].
  split; [|split; [exact Hnd|split]].
  - intros e. rewrite Hperm. apply elem_of_collect.
  - apply sorted_strictly; [exact Hnd|apply sort_desc_sorted].
  - vm_compute. reflexivity.
Qed.

(** C5 fails as stated: a descriptor whose container is [mp4] and whose
    height is present but zero is left out of the catalogue. *)
Lemma zero_height_left_out :
  ext {| ext := Some "mp4"; height := Some 0 |} = Some "mp4" /\
  is_Some (height {| ext := Some "mp4"; height := Some 0 |}) /\
  get_video_info_formats [{| ext := Some "mp4"; height := Some 0 |}] = [].
Proof.
  split; [reflexivity|]. split; [by eexists|]. vm_compute. reflexivity.
Qed.

(** ** Threads and their jobs *)

Section Threads.

Variable py_float : string -> option pyfloat.

Lemma handle_some i t e (reg : registry) ts r :
  reg !! t_id t = Some r ->
  handle i t e reg ts =
    {| download_progress :=
         <[t_id t := <["error" := VStr (exn_str e)]>
                       (<["status" := VStr "error"]> r)]> reg;
       threads := <[i := set_phase Finished t]> ts |}.
Proof. intros Hr. unfold handle. by rewrite (on_exception_some _ _ _ _ Hr). Qed.

Lemma step_keeps_jobs l w w' id :
  step py_float l w = Some w' ->
  is_Some (download_progress w !! id) -> is_Some (download_progress w' !! id).
Proof.
  apply (step_registry py_float (fun reg => is_Some (reg !! id))).
  - intros id'. apply set_job_keeps_job.
  - intros id' e. apply on_exception_keeps_job.
  - intros i d id' _. apply hook_keeps_job.
Qed.

(** A thread that runs after an action ran before it, or has just
    been started by it. *)
Lemma step_running l w w' j t' sel :
  step py_float l w = Some w' ->
  threads w' !! j = Some t' -> t_phase t' = Running sel ->
  (exists t sel0, threads w !! j = Some t /\ t_id t = t_id t' /\
                  t_phase t = Running sel0) \/
  (l = Thread_start j /\ is_Some (download_progress w' !! t_id t')).
Proof.
  intros Hstep Hj Hrun.
  assert (Hold : threads w !! j = Some t' ->
    exists t sel0, threads w !! j = Some t /\ t_id t = t_id t' /\
                   t_phase t = Running sel0).
  { intros H. by exists t', sel. }
  destruct l; step_cases Hstep.
  - left. unfold download in Hj.
    destruct (data !! "url") as [[|c u]|]; simpl in Hj; auto.
    apply lookup_app_Some in Hj as [Hj|[_ Hj]]; [auto|].
    apply list_lookup_singleton_Some in Hj as [_ <-]. done.
  - auto.
  - apply list_lookup_insert_Some in Hj as [(<- & <- & _)|[Hne Hj]].
    + right. split; [done|]. simpl. rewrite lookup_insert_eq. eauto.
    + auto.
  - auto.
  - unfold handle in Hj. simpl in Hj.
    apply list_lookup_insert_Some in Hj as [(<- & <- & _)|[Hne Hj]].
    + simpl in Hrun. by destruct (on_exception _ _ _).1.
    + auto.
  - unfold handle in Hj. simpl in Hj.
    apply list_lookup_insert_Some in Hj as [(<- & <- & _)|[Hne Hj]].
    + simpl in Hrun. by destruct (on_exception _ _ _).1.
    + auto.
  - apply list_lookup_insert_Some in Hj as [(<- & <- & _)|[Hne Hj]];
      [done|auto].
Qed.

Lemma step_running_jobs_exist l w w' :
  step py_float l w = Some w' ->
  running_jobs_exist w -> running_jobs_exist w'.
Proof.
  intros Hstep Hinv j t' sel Hj Hrun.
  destruct (step_running _ _ _ _ _ _ Hstep Hj Hrun)
    as [(t & sel0 & Ht & <- & Hp)|[_ H]]; [|done].
  eapply step_keeps_jobs; [exact Hstep|]. by eapply Hinv.
Qed.

Lemma step_never_crashed l w w' :
  step py_float l w = Some w' ->
  running_jobs_exist w -> never_crashed w -> never_crashed w'.
Proof.
  intros Hstep Hinv Hnc j t' e' Hj Hcr.
  assert (Hold : forall t, threads w !! j = Some t -> t_phase t <> Crashed e')
    by (intros t Ht; by apply (Hnc j)).
  destruct l; step_cases Hstep.
  - unfold download in Hj.
    destruct (data !! "url") as [[|c u]|]; simpl in Hj;
      try by eapply Hold.
    apply lookup_app_Some in Hj as [Hj|[_ Hj]]; [by eapply Hold|].
    apply list_lookup_singleton_Some in Hj as [_ <-]. done.
  - by eapply Hold.
  - apply list_lookup_insert_Some in Hj as [(<- & <- & _)|[Hne Hj]];
      [done|by eapply Hold].
  - by eapply Hold.
  - assert (Hjob : is_Some (reg' !! t_id t)).
    { pose proof (hook_keeps_job py_float (t_id t) (t_id t) d _
                    (Hinv _ _ _ Ht Hp)) as H. by rewrite Hh in H. }
    destruct Hjob as [r Hr]. rewrite (on_exception_some _ _ _ _ Hr) in Hj.
    simpl in Hj.
    apply list_lookup_insert_Some in Hj as [(<- & <- & _)|[Hne Hj]];
      [done|by eapply Hold].
  - destruct (Hinv _ _ _ Ht Hp) as [r Hr].
    rewrite (on_exception_some _ _ _ _ Hr) in Hj. simpl in Hj.
    apply list_lookup_insert_Some in Hj as [(<- & <- & _)|[Hne Hj]];
      [done|by eapply Hold].
  - apply list_lookup_insert_Some in Hj as [(<- & <- & _)|[Hne Hj]];
      [done|by eapply Hold].
Qed.

Lemma run_threads_sound ls w w' :
  run py_float ls w = Some w' ->
  running_jobs_exist w /\ never_crashed w ->
  running_jobs_exist w' /\ never_crashed w'.
Proof.
  revert w. induction ls as [|l ls IH]; intros w Hrun [H1 H2].
  - by simplify_eq/=.
  - simpl in Hrun. destruct (step py_float l w) as [w1|] eqn:Hstep; [|done].
    apply (IH w1 Hrun). split.
    + by eapply step_running_jobs_exist.
    + by eapply step_never_crashed.
Qed.

Lemma initial_threads_sound : running_jobs_exist initial /\ never_crashed initial.
Proof. split; intros i t ? Hi; simpl in Hi; by rewrite lookup_nil in Hi. Qed.

End Threads.

(** ** The worker thread and [download_video]

    The actions of one thread, run one after the other, do to the
    registry what [download_video] does: the interleaved process is the
    code of the worker cut at its interactions with the collaborator. *)

Section Refinement.

Variable py_float : string -> option pyfloat.

Lemma hooks_refine i ds fin w t sel :
  threads w !! i = Some t -> t_phase t = Running sel ->
  is_Some (download_progress w !! t_id t) ->
  exists n w',
    run py_float (take n ((Thread_hook i <$> ds) ++ [last_action i fin])) w
      = Some w' /\
    download_progress w' =
      (try_except
         (call_hooks (progress_hook py_float (t_id t)) ds ;; ending_of fin)
         (on_exception (t_id t)) (download_progress w)).2 /\
    threads w' = <[i := set_phase Finished t]> (threads w).
Proof.
  revert w. induction ds as [|d ds IH]; intros w Ht Hp [r Hr].
  - exists 1%nat. simpl. unfold try_except, mbind, py_bind. simpl.
    destruct fin as [|e]; simpl; rewrite Ht; simpl; rewrite Hp.
    + eexists. split; [reflexivity|]. done.
    + rewrite (handle_some _ _ _ _ _ _ Hr).
      rewrite (on_exception_some _ _ _ _ Hr).
      eexists. split; [reflexivity|]. done.
  - destruct (progress_hook py_float (t_id t) d (download_progress w))
      as [[[]|e] reg1] eqn:Hh.
    + pose proof (hook_keeps_job py_float (t_id t) (t_id t) d _
                    (ex_intro _ r Hr)) as Hjob.
      rewrite Hh in Hjob. simpl in Hjob.
      destruct (IH {| download_progress := reg1; threads := threads w |}
                  Ht Hp Hjob) as (n & w' & Hrun & Hreg & Hts).
      exists (S n), w'. simpl. rewrite Ht. simpl. rewrite Hp, Hh. simpl.
      split; [exact Hrun|]. split; [|exact Hts].
      rewrite Hreg. simpl. unfold try_except, mbind, py_bind.
      by rewrite Hh.
    + pose proof (hook_keeps_job py_float (t_id t) (t_id t) d _
                    (ex_intro _ r Hr)) as Hjob.
      rewrite Hh in Hjob. simpl in Hjob. destruct Hjob as [r1 Hr1].
      exists 1%nat. simpl. rewrite Ht. simpl. rewrite Hp, Hh. simpl.
      rewrite (handle_some _ _ _ _ _ _ Hr1).
      eexists. split; [reflexivity|]. simpl. split; [|done].
      unfold try_except, mbind, py_bind. rewrite Hh.
      by rewrite (on_exception_some _ _ _ _ Hr1).
Qed.

Lemma thread_script_refines i b w t :
  threads w !! i = Some t -> t_phase t = Spawned ->
  exists n w',
    run py_float (take n (thread_script i b)) w = Some w' /\
    download_progress w' =
      (download_video py_float (t_url t) (t_quality t) (t_id t)
         (fun _ _ => b) (download_progress w)).2 /\
    threads w' = <[i := set_phase Finished t]> (threads w).
Proof.
  intros Ht Hp.
  set (w1 := {| download_progress := <[t_id t := new_job]> (download_progress w);
                threads := <[i := set_phase (Running (format_selector (t_quality t))) t]>
                             (threads w) |}).
  assert (Hlt : (i < length (threads w))%nat) by by eapply lookup_lt_Some.
  destruct (hooks_refine i (emitted b) (ends b) w1
              (set_phase (Running (format_selector (t_quality t))) t)
              (format_selector (t_quality t)))
    as (n & w' & Hrun & Hreg & Hts).
  - simpl. by rewrite list_lookup_insert_eq.
  - done.
  - simpl. rewrite lookup_insert_eq. eauto.
  - exists (S n), w'. unfold thread_script. simpl. rewrite Ht. simpl.
    rewrite Hp. simpl. split; [exact Hrun|]. split.
    + rewrite Hreg. reflexivity.
    + rewrite Hts. simpl. by rewrite list_insert_insert_eq.
Qed.

End Refinement.

(** ** Exceptions in the worker (lines 18-58) *)

Lemma download_video_catches py_float url quality id b (reg : registry) :
  (download_video py_float url quality id b reg).1 = Ok tt /\
  forall e reg1,
    worker_body py_float url quality id b reg = (Raised e, reg1) ->
    field id "status" (download_video py_float url quality id b reg).2
      = Some (VStr "error") /\
    field id "error" (download_video py_float url quality id b reg).2
      = Some (VStr (exn_str e)).
Proof.
  pose proof (worker_body_has_job py_float url quality id b reg) as [r Hr].
  destruct (worker_body py_float url quality id b reg) as [[[]|e] reg1] eqn:E;
    simpl in Hr.
  - rewrite (download_video_returned _ _ _ _ _ _ _ E). split; [done|].
    intros ? ? [=].
  - rewrite (download_video_raised _ _ _ _ _ _ _ _ E).
    rewrite (on_exception_some _ _ _ _ Hr). split; [done|].
    intros e' reg' [= <- <-]. unfold field. simpl.
    rewrite lookup_insert_eq. simpl.
    rewrite lookup_insert_eq, lookup_insert_ne, lookup_insert_eq by done.
    done.
Qed.

Lemma handled_in_thread i t e (reg : registry) ts r :
  ts !! i = Some t -> reg !! t_id t = Some r ->
  threads (handle i t e reg ts) !! i = Some (set_phase Finished t) /\
  field (t_id t) "status" (download_progress (handle i t e reg ts))
    = Some (VStr "error") /\
  field (t_id t) "error" (download_progress (handle i t e reg ts))
    = Some (VStr (exn_str e)).
Proof.
  intros Ht Hr. rewrite (handle_some _ _ _ _ _ _ Hr). simpl.
  split; [|split].
  - apply list_lookup_insert_eq. by eapply lookup_lt_Some.
  - unfold field. rewrite lookup_insert_eq. simpl.
    by rewrite lookup_insert_ne, lookup_insert_eq.
  - unfold field. rewrite lookup_insert_eq. simpl.
    by rewrite lookup_insert_eq.
Qed.

(** C8.  Whatever the collaborator does, [download_video] returns
    normally: no exception leaves the worker.  When an exception [e] is
    raised anywhere in its [try] block, by the collaborator or by the
    progress hook, the job ends with status [error] and with [str(e)] as
    its error field.  The same holds in every interleaving with
    requests and other workers: no thread ever dies of an exception,
    and an exception in a running thread ends that thread normally,
    with the job in status [error] and [str(e)] as its error field. *)
Theorem worker_records_every_exception py_float :
  (forall url quality id b (reg : registry),
     (download_video py_float url quality id b reg).1 = Ok tt /\
     forall e reg1,
       worker_body py_float url quality id b reg = (Raised e, reg1) ->
       field id "status" (download_video py_float url quality id b reg).2
         = Some (VStr "error") /\
       field id "error" (download_video py_float url quality id b reg).2
         = Some (VStr (exn_str e))) /\
  (forall ls w,
     run py_float ls initial = Some w ->
     never_crashed w /\
     forall i t sel e,
       threads w !! i = Some t -> t_phase t = Running sel ->
       (exists w',
          step py_float (Thread_raise i e) w = Some w' /\
          threads w' !! i = Some (set_phase Finished t) /\
          field (t_id t) "status" (download_progress w') = Some (VStr "error") /\
          field (t_id t) "error" (download_progress w')
            = Some (VStr (exn_str e))) /\
       (forall d reg1,
          progress_hook py_float (t_id t) d (download_progress w)
            = (Raised e, reg1) ->
          exists w',
            step py_float (Thread_hook i d) w = Some w' /\
            threads w' !! i = Some (set_phase Finished t) /\
            field (t_id t) "status" (download_progress w')
              = Some (VStr "error") /\
            field (t_id t) "error" (download_progress w')
              = Some (VStr (exn_str e)))).
Proof.
  split; [intros; apply download_video_catches|].
  intros ls w Hrun.
  destruct (run_threads_sound py_float _ _ _ Hrun initial_threads_sound)
    as [Hjobs Hnc].
  split; [exact Hnc|]. intros i t sel e Ht Hp.
  destruct (Hjobs _ _ _ Ht Hp) as [r Hr]. split.
  - eexists. split.
    + unfold step. rewrite Ht. simpl. by rewrite Hp.
    + by apply handled_in_thread with r.
  - intros d reg1 Hh.
    pose proof (hook_keeps_job py_float (t_id t) (t_id t) d _
                  (ex_intro _ r Hr)) as Hjob.
    rewrite Hh in Hjob. simpl in Hjob. destruct Hjob as [r1 Hr1].
    eexists. split.
    + unfold step. rewrite Ht. simpl. by rewrite Hp, Hh.
    + by apply handled_in_thread with r1.
Qed.

Lemma worker_records_every_exception_witness :
  field "1700" "status"
    (download_video decimal_float "https://example.org/v" "1080" "1700"
       (fun _ _ =>
          {| emitted := [ev_bytes 1 3];
             ends := Raises (Exn "DownloadError"
                               "ERROR: requested format not available") |})
       ∅).2
    = Some (VStr "error") /\
  field "1700" "error"
    (download_video decimal_float "https://example.org/v" "1080" "1700"
       (fun _ _ =>
          {| emitted := [ev_bytes 1 3];
             ends := Raises (Exn "DownloadError"
                               "ERROR: requested format not available") |})
       ∅).2
    = Some (VStr "ERROR: requested format not available").
Proof.
  eapply (proj2 (proj1 (worker_records_every_exception decimal_float)
                   "https://example.org/v" "1080" "1700" _ ∅)
            (Exn "DownloadError" "ERROR: requested format not available")).
  vm_compute. reflexivity.
Defined.

(** ** The quality selector (lines 40-45 and 114) *)

(** C6.  The token [best] gives [best[ext=mp4]], the token [worst] gives
    [worst[ext=mp4]], and every other token [h] is spliced unchanged
    into [best[height<=h][ext=mp4]], whether or not it is a number.  A
    request without a [quality] field spawns its worker with the quality
    [best], and that worker, once started, runs the collaborator with
    the selector [best[ext=mp4]]. *)
Theorem quality_selector :
  format_selector "best" = "best[ext=mp4]" /\
  format_selector "worst" = "worst[ext=mp4]" /\
  (forall h, h <> "best" -> h <> "worst" ->
     format_selector h = "best[height<=" +:+ h +:+ "][ext=mp4]") /\
  (forall py_float data now w url,
     data !! "url" = Some url -> url <> "" -> data !! "quality" = None ->
     exists id w',
       (download data now w).1 = Json 200 {[ "download_id" := VStr id ]} /\
       threads (download data now w).2 =
         (threads w ++ [{| t_url := url; t_quality := "best"; t_id := id;
                           t_phase := Spawned |}])%list /\
       step py_float (Thread_start (length (threads w))) (download data now w).2
         = Some w' /\
       threads w' !! length (threads w) =
         Some {| t_url := url; t_quality := "best"; t_id := id;
                 t_phase := Running "best[ext=mp4]" |}).
Proof.
  split; [reflexivity|]. split; [reflexivity|].
  split; [exact format_selector_other|].
  intros py_float data now w url Hu Hne Hq.
  pose proof (start_after_download py_float data now w url Hu Hne) as Hs.
  rewrite (download_accepted _ _ _ _ Hu Hne) in *. rewrite Hq in *.
  simpl in *. exists (new_download_id now). eexists.
  split; [done|]. split; [done|]. split; [exact Hs|].
  simpl. by rewrite list_lookup_middle.
Qed.

Lemma quality_selector_witness :
  format_selector "720" = "best[height<=720][ext=mp4]" /\
  format_selector "72O; rm" = "best[height<=72O; rm][ext=mp4]".
Proof.
  split; apply (proj1 (proj2 (proj2 quality_selector))); discriminate.
Defined.

(** * Further properties of the program *)

(** ** The threads that [download] spawns (lines 113-125) *)

Lemma download_threads data now w :
  threads (download data now w).2 =
    if accepted (Post_download data now)
    then (threads w ++ [{| t_url := default "" (data !! "url");
                           t_quality := default "best" (data !! "quality");
                           t_id := new_download_id now; t_phase := Spawned |}])%list
    else threads w.
Proof.
  unfold download, accepted. destruct (data !! "url") as [[|c u]|]; done.
Qed.

Lemma step_thread_count py_float l w w' :
  step py_float l w = Some w' ->
  length (threads w') =
    (length (threads w) + if accepted l then 1 else 0)%nat.
Proof.
  intros Hstep. destruct l; step_cases Hstep;
    rewrite ?length_insert; try lia.
  rewrite download_threads. simpl.
  destruct (data !! "url") as [u|]; [destruct (negb _)|];
    rewrite ?length_app; simpl; lia.
Qed.

(** X2.  Each accepted [/download] request adds one worker thread and
    nothing else adds or removes one: after any run, the process has as
    many more threads as the run has accepted requests. *)
Theorem one_thread_per_accepted_request py_float ls w w' :
  run py_float ls w = Some w' ->
  length (threads w') =
    (length (threads w) + length (filter (fun l => accepted l = true) ls))%nat.
Proof.
  revert w. induction ls as [|l ls IH]; intros w Hrun.
  - simplify_eq/=. lia.
  - simpl in Hrun. destruct (step py_float l w) as [w1|] eqn:Hstep; [|done].
    simpl in Hrun. rewrite (IH _ Hrun), (step_thread_count _ _ _ _ Hstep).
    rewrite filter_cons. destruct (decide (accepted l = true)) as [->|Hn].
    + simpl. lia.
    + apply not_true_is_false in Hn. rewrite Hn. lia.
Qed.

Lemma one_thread_per_accepted_request_witness :
  exists w',
    run decimal_float
      [Post_download sample_request (17 # 10); Post_download ∅ (18 # 10);
       Thread_start 0; Get_progress "1700"] initial = Some w' /\
    length (threads w') = 1%nat.
Proof.
  eexists. split; [vm_compute; reflexivity|].
  rewrite (one_thread_per_accepted_request decimal_float
             [Post_download sample_request (17 # 10); Post_download ∅ (18 # 10);
              Thread_start 0; Get_progress "1700"] initial);
    [reflexivity | vm_compute; reflexivity].
Defined.

(** ** Paths (lines 37, 49 and 149) *)

Lemma has_slash_basename p : has_slash (basename p) = false.
Proof.
  induction p as [|c r IH]; simpl; [done|].
  destruct (has_slash r) eqn:Hr; [exact IH|].
  destruct (Ascii.eqb c "/") eqn:Hc; [exact Hr|].
  simpl. by rewrite Hc, Hr.
Qed.

Lemma basename_plain b : has_slash b = false -> basename b = b.
Proof.
  destruct b as [|c r]; simpl; [done|].
  intros [Hc Hr]%orb_false_elim. by rewrite Hr, Hc.
Qed.

Lemma has_slash_app a b : has_slash (a +:+ b) = has_slash a || has_slash b.
Proof.
  induction a as [|c a IH]; simpl; [done|]. by rewrite IH, orb_assoc.
Qed.

Lemma ends_with_slash_has_slash a : ends_with_slash a = true -> has_slash a = true.
Proof.
  induction a as [|c a IH]; [done|]. simpl.
  destruct a as [|c' a']; [by intros ->|].
  intros H. rewrite (IH H). apply orb_true_r.
Qed.

Lemma basename_in_dir a b :
  has_slash b = false -> basename (a +:+ "/" +:+ b) = b.
Proof.
  intros Hb. induction a as [|c a IH]; simpl.
  - change ("" +:+ b) with b. by rewrite Hb.
  - rewrite has_slash_app. simpl. rewrite orb_true_r. exact IH.
Qed.

Lemma basename_String c r :
  basename (String c r) =
    if has_slash r then basename r
    else if Ascii.eqb c "/" then r else String c r.
Proof. reflexivity. Qed.

Lemma basename_after_slash a b :
  has_slash b = false -> a = "" \/ ends_with_slash a = true ->
  basename (a +:+ b) = b.
Proof.
  intros Hb. induction a as [|c a IH]; intros Ha.
  - by apply basename_plain.
  - destruct Ha as [?|Ha]; [done|].
    change (String c a +:+ b) with (String c (a +:+ b)).
    rewrite basename_String. destruct a as [|c' a'].
    + change ("" +:+ b) with b. simpl in Ha. by rewrite Hb, Ha.
    + assert (Ha' : ends_with_slash (String c' a') = true) by exact Ha.
      rewrite has_slash_app, (ends_with_slash_has_slash _ Ha'). simpl.
      apply IH. by right.
Qed.

(** [basename] undoes [join] on a name without a slash. *)
Lemma basename_join a b :
  has_slash b = false -> basename (path_join a b) = b.
Proof.
  intros Hb. unfold path_join.
  assert (starts_with_slash b = false) as ->.
  { destruct b as [|c r]; [done|]. simpl in *.
    by apply orb_false_elim in Hb as [-> _]. }
  destruct (String.eqb_spec a "") as [->|Hne]; simpl.
  - by apply basename_plain.
  - destruct (ends_with_slash a) eqn:Ha.
    + apply basename_after_slash; auto.
    + by apply basename_in_dir.
Qed.

(** ** The file endpoint (lines 138-153) *)

Lemma is_completed_spec (r : job) :
  is_completed r = true <-> r !! "status" = Some (VStr "completed").
Proof.
  unfold is_completed. destruct (r !! "status") as [[n|x|s]|]; try done.
  destruct (String.eqb_spec s "completed") as [->|Hne]; split; try done.
  by intros [= ->].
Qed.

Lemma download_file_spec folder on_disk id (reg : registry) path name :
  download_file folder on_disk id reg = Ok (Attachment path name) <->
  exists r,
    reg !! id = Some r /\
    r !! "status" = Some (VStr "completed") /\
    r !! "filename" = Some (VStr name) /\
    name <> "" /\
    path = path_join folder name /\
    on_disk path = true.
Proof.
  unfold download_file. split.
  - destruct (reg !! id) as [r|]; [|done].
    destruct (size r =? 0)%nat; [done|]. simpl.
    destruct (is_completed r) eqn:Hc; [|done]. simpl.
    apply is_completed_spec in Hc.
    destruct (r !! "filename") as [v|] eqn:Hf; [|done].
    destruct (truthy v) eqn:Hv; [|done]. simpl.
    destruct v as [n|x|s]; try done.
    destruct (on_disk (path_join folder s)) eqn:Hd; [|done].
    intros [= <- <-]. exists r.
    split; [done|]. split; [done|]. split; [done|]. split; [|done].
    intros ->. done.
  - intros (r & -> & Hs & Hf & Hne & -> & Hd).
    assert ((size r =? 0)%nat = false) as ->.
    { apply Nat.eqb_neq. intros H0. apply map_size_empty_inv in H0.
      subst r. by rewrite lookup_empty in Hs. }
    apply is_completed_spec in Hs. rewrite Hs, Hf. simpl.
    destruct (String.eqb_spec name "") as [?|_]; [done|]. simpl.
    by rewrite Hd.
Qed.

(** X3.  [download_file] sends a file exactly when the job exists, its
    status is [completed], its filename is a non-empty string and the
    file of that name is in the download folder; the file sent is the
    folder joined with the filename, offered under the filename.  A
    request for an identifier without a job is answered 404
    [File not ready]. *)
Theorem download_file_sends_iff folder on_disk id (reg : registry) :
  (forall path name,
     download_file folder on_disk id reg = Ok (Attachment path name) <->
     exists r,
       reg !! id = Some r /\
       r !! "status" = Some (VStr "completed") /\
       r !! "filename" = Some (VStr name) /\
       name <> "" /\
       path = path_join folder name /\
       on_disk path = true) /\
  (reg !! id = None -> download_file folder on_disk id reg = Ok not_ready).
Proof.
  split; [intros; apply download_file_spec|].
  intros H. unfold download_file. by rewrite H.
Qed.

Lemma on_exception_not_completed id e (reg : registry) r :
  (on_exception id e reg).2 !! id = Some r -> is_completed r = false.
Proof.
  destruct (reg !! id) as [r0|] eqn:Hr.
  - rewrite (on_exception_some _ _ _ _ Hr). simpl.
    rewrite lookup_insert_eq. intros [= <-].
    unfold is_completed. by rewrite lookup_insert_ne, lookup_insert_eq.
  - rewrite (on_exception_none _ _ _ Hr). simpl. by rewrite Hr.
Qed.

(** X4.  Once the worker has recorded an error for a job,
    [download_file] answers 404 [File not ready] for it, whatever the
    record held before (a filename stored by an earlier [finished]
    event included) and whatever is on disk. *)
Theorem download_file_after_error folder on_disk id e (reg : registry) :
  download_file folder on_disk id (on_exception id e reg).2 = Ok not_ready.
Proof.
  unfold download_file.
  destruct ((on_exception id e reg).2 !! id) as [r|] eqn:Hr; [|done].
  rewrite (on_exception_not_completed _ _ _ _ Hr). simpl.
  by rewrite orb_true_r.
Qed.

(** X5.  The file that the collaborator reports is the file served.
    When a [finished] event names a file placed in the download folder
    under a non-empty name without a slash, and that file is on disk,
    then [download_file] for that job sends exactly this file, under
    that name: line 37 takes off the folder that line 149 puts back. *)
Theorem finished_then_served
    py_float folder on_disk id d name (reg : registry) r :
  reg !! id = Some r -> status d = "finished" ->
  filename d = Some (path_join folder name) ->
  has_slash name = false -> name <> "" ->
  on_disk (path_join folder name) = true ->
  download_file folder on_disk id (progress_hook py_float id d reg).2
  = Ok (Attachment (path_join folder name) name).
Proof.
  intros Hr Hs Hf Hn Hne Hd.
  rewrite (finished_event py_float _ _ _ _ _ Hr Hs Hf). simpl.
  apply download_file_spec. eexists. split; [apply lookup_insert_eq|].
  rewrite (basename_join _ _ Hn).
  split.
  { do 2 rewrite lookup_insert_ne by done. by rewrite lookup_insert_eq. }
  split; [by rewrite lookup_insert_eq|]. done.
Qed.

Lemma finished_then_served_witness :
  download_file "/tmp/dl" (fun p => String.eqb p "/tmp/dl/clip.mp4") "1700"
    (progress_hook decimal_float "1700" (ev_finished "/tmp/dl/clip.mp4")
       {[ "1700" := new_job ]}).2
  = Ok (Attachment "/tmp/dl/clip.mp4" "clip.mp4").
Proof.
  apply (finished_then_served decimal_float "/tmp/dl"
           (fun p => String.eqb p "/tmp/dl/clip.mp4") "1700"
           (ev_finished "/tmp/dl/clip.mp4") "clip.mp4"
           {[ "1700" := new_job ]} new_job);
    first [apply lookup_singleton_eq | reflexivity | discriminate].
Defined.

Lemma set_field_plain id k v :
  (k = "filename" -> exists s, v = VStr s /\ has_slash s = false) ->
  preserves filenames_plain (set_field id k v).
Proof.
  intros Hv. apply preserves_set_field. intros reg r HP Hr id' r' Hl.
  destruct (decide (id = id')) as [->|Hne].
  - rewrite lookup_insert_eq in Hl. simplify_eq.
    destruct (decide (k = "filename")) as [->|Hk].
    + destruct (Hv eq_refl) as (s & -> & Hs). exists s.
      by rewrite lookup_insert_eq.
    + rewrite lookup_insert_ne by done. by apply (HP id').
  - rewrite lookup_insert_ne in Hl by done. by apply (HP id').
Qed.

Lemma run_filenames_plain py_float ls w :
  run py_float ls initial = Some w -> filenames_plain (download_progress w).
Proof.
  intros Hrun.
  eapply (run_registry py_float filenames_plain (fun _ => True));
    [| | | | exact Hrun | ].
  - intros id. apply preserves_set_job. intros reg HP id' r' Hl.
    destruct (decide (id = id')) as [->|Hne].
    + rewrite lookup_insert_eq in Hl. simplify_eq. by exists "".
    + rewrite lookup_insert_ne in Hl by done. by apply (HP id').
  - intros id e. apply preserves_on_exception;
      apply set_field_plain; discriminate.
  - intros id d _. apply preserves_progress_hook; intros;
      repeat split; intros; apply set_field_plain; try discriminate.
    intros _. eexists. split; [done|]. apply has_slash_basename.
  - clear. induction ls as [|[] ls IH]; constructor; simpl; auto.
  - intros ? ? Hl. simpl in Hl. by rewrite lookup_empty in Hl.
Qed.

(** X6.  In every run of the process, [download_file] answers without
    raising, and a file it sends is named without a slash and lies
    directly in the download folder: its path is the folder joined with
    that name, and the base name of the path is the name. *)
Theorem download_file_stays_in_folder py_float folder on_disk ls w id :
  run py_float ls initial = Some w ->
  exists resp,
    download_file folder on_disk id (download_progress w) = Ok resp /\
    forall path name,
      resp = Attachment path name ->
      has_slash name = false /\ path = path_join folder name /\
      basename path = name.
Proof.
  intros Hrun. pose proof (run_filenames_plain _ _ _ Hrun) as HP.
  destruct (download_file folder on_disk id (download_progress w))
    as [resp|e] eqn:E.
  - exists resp. split; [done|]. intros path name ->.
    apply download_file_spec in E as (r & Hr & _ & Hf & _ & -> & _).
    destruct (HP _ _ Hr) as (s & Hs & Hplain). rewrite Hf in Hs.
    simplify_eq. split; [done|]. split; [done|]. by apply basename_join.
  - exfalso. unfold download_file in E.
    destruct (download_progress w !! id) as [r|] eqn:Hr; [|done].
    destruct (HP _ _ Hr) as (s & Hs & _). rewrite Hs in E.
    destruct ((size r =? 0)%nat || negb (is_completed r)); [done|].
    destruct (negb (truthy (VStr s))); [done|].
    by destruct (on_disk _).
Qed.

Lemma download_file_stays_in_folder_witness :
  exists resp,
    download_file "/tmp/dl" (fun _ => true) "1700"
      (download_progress
         {| download_progress := (progress_hook decimal_float "1700"
                                    (ev_finished "/srv/a/b.mp4")
                                    {[ "1700" := new_job ]}).2;
            threads := [{| t_url := "https://example.org/watch?v=1";
                           t_quality := "best"; t_id := "1700";
                           t_phase := Running "best[ext=mp4]" |}] |})
      = Ok resp /\
    forall path name,
      resp = Attachment path name ->
      has_slash name = false /\ path = path_join "/tmp/dl" name /\
      basename path = name.
Proof.
  apply (download_file_stays_in_folder decimal_float "/tmp/dl" (fun _ => true)
           [Post_download sample_request (17 # 10); Thread_start 0;
            Thread_hook 0 (ev_finished "/srv/a/b.mp4")]).
  vm_compute. reflexivity.
Defined.

(** ** Which records a worker touches *)

Lemma hooks_unconstrained ls : Forall (hooks_satisfy (fun _ => True)) ls.
Proof. induction ls as [|[] ls IH]; constructor; simpl; auto. Qed.

Lemma set_field_elsewhere id id' k v o :
  id' <> id ->
  preserves (fun reg : registry => reg !! id = o) (set_field id' k v).
Proof.
  intros Hne. apply preserves_set_field. intros reg r HP _.
  by rewrite lookup_insert_ne.
Qed.

Lemma hook_elsewhere py_float id id' d o :
  id' <> id ->
  preserves (fun reg : registry => reg !! id = o) (progress_hook py_float id' d).
Proof.
  intros Hne. apply preserves_progress_hook; intros;
    repeat split; intros; by apply set_field_elsewhere.
Qed.

Lemma on_exception_elsewhere id id' e o :
  id' <> id ->
  preserves (fun reg : registry => reg !! id = o) (on_exception id' e).
Proof.
  intros Hne. apply preserves_on_exception; by apply set_field_elsewhere.
Qed.

Lemma download_video_elsewhere py_float url quality id b id' o :
  id <> id' ->
  preserves (fun reg : registry => reg !! id' = o)
    (download_video py_float url quality id b).
Proof.
  intros Hne. unfold download_video, worker_body, ydl_download.
  apply preserves_try.
  - apply preserves_bind.
    + apply preserves_set_job. intros reg H. by rewrite lookup_insert_ne.
    + intros _. apply preserves_bind.
      * apply preserves_call_hooks. intros d _. by apply hook_elsewhere.
      * intros _. unfold ending_of. destruct (ends _); auto with keep.
  - intros e. by apply on_exception_elsewhere.
Qed.

(** X7.  A worker writes the record of its own identifier only.
    [download_video] leaves the record of every other identifier as it
    was, and in the interleaved process the record of an identifier is
    changed by no action other than those of a thread that works on
    that identifier. *)
Theorem worker_writes_own_record_only py_float :
  (forall url quality id b (reg : registry) id',
     id' <> id ->
     (download_video py_float url quality id b reg).2 !! id' = reg !! id') /\
  (forall l w w' id,
     step py_float l w = Some w' ->
     (forall i, actor l = Some i -> thread_id w i <> Some id) ->
     download_progress w' !! id = download_progress w !! id).
Proof.
  split.
  - intros url quality id b reg id' Hne.
    by apply (download_video_elsewhere py_float url quality id b id'
                (reg !! id')).
  - intros l w w' id Hstep Hact.
    assert (Hid : forall i t, actor l = Some i -> threads w !! i = Some t ->
                    t_id t <> id).
    { intros i t Hi Ht <-. apply (Hact i Hi). unfold thread_id. by rewrite Ht. }
    destruct l; step_cases Hstep.
    + by rewrite download_registry.
    + done.
    + rewrite lookup_insert_ne; [done|]. by eapply Hid.
    + pose proof (hook_elsewhere py_float id (t_id t) d
                    (download_progress w !! id)
                    (Hid _ _ eq_refl Ht) (download_progress w) eq_refl) as H.
      by rewrite Hh in H.
    + unfold handle. simpl.
      apply (on_exception_elsewhere id (t_id t) e _ (Hid _ _ eq_refl Ht)).
      pose proof (hook_elsewhere py_float id (t_id t) d
                    (download_progress w !! id)
                    (Hid _ _ eq_refl Ht) (download_progress w) eq_refl) as H.
      by rewrite Hh in H.
    + unfold handle. simpl.
      by apply (on_exception_elsewhere id (t_id t) e _ (Hid _ _ eq_refl Ht)).
    + done.
Qed.

Lemma worker_writes_own_record_only_witness :
  (download_video decimal_float "https://example.org/v" "best" "1700"
     (fun _ _ => {| emitted := [ev_finished "/tmp/dl/a.mp4"]; ends := Returns |})
     {[ "1699" := new_job ]}).2 !! "1699"
  = ({[ "1699" := new_job ]} : registry) !! "1699".
Proof.
  apply (proj1 (worker_writes_own_record_only decimal_float)). discriminate.
Defined.

(** ** Jobs come from started threads and are never removed *)

(** X8.  No job is ever removed: a record that is in the registry at
    some point of a run is in it at every later point. *)
Theorem jobs_are_never_removed py_float ls w w' id :
  run py_float ls w = Some w' ->
  is_Some (download_progress w !! id) -> is_Some (download_progress w' !! id).
Proof.
  intros Hrun.
  apply (run_registry py_float (fun reg => is_Some (reg !! id))
           (fun _ => True)) with ls; auto using hooks_unconstrained.
  - intros id'. apply set_job_keeps_job.
  - intros id' e. apply on_exception_keeps_job.
  - intros id' d _. apply hook_keeps_job.
Qed.

Lemma jobs_are_never_removed_witness :
  exists w',
    run decimal_float
      [Thread_hook 0 (ev_finished "/tmp/dl/a.mp4"); Thread_raise 0 (Exn "E" "late")]
      {| download_progress := {[ "1700" := new_job ]};
         threads := [{| t_url := "u"; t_quality := "best"; t_id := "1700";
                        t_phase := Running "best[ext=mp4]" |}] |} = Some w' /\
    is_Some (download_progress w' !! "1700").
Proof.
  eexists. split; [vm_compute; reflexivity|].
  eapply (jobs_are_never_removed decimal_float
            [Thread_hook 0 (ev_finished "/tmp/dl/a.mp4");
             Thread_raise 0 (Exn "E" "late")]
            {| download_progress := {[ "1700" := new_job ]};
               threads := [{| t_url := "u"; t_quality := "best";
                              t_id := "1700";
                              t_phase := Running "best[ext=mp4]" |}] |}).
  - vm_compute. reflexivity.
  - simpl. rewrite lookup_singleton_eq. eauto.
Defined.

Lemma set_field_adds_no_job id id' k v :
  preserves (fun reg : registry => reg !! id = None) (set_field id' k v).
Proof.
  apply preserves_set_field. intros reg r HP Hr.
  rewrite lookup_insert_ne; [done|]. congruence.
Qed.

Lemma hook_adds_no_job py_float id id' d :
  preserves (fun reg : registry => reg !! id = None)
    (progress_hook py_float id' d).
Proof.
  apply preserves_progress_hook; intros;
    repeat split; intros; apply set_field_adds_no_job.
Qed.

Lemma on_exception_adds_no_job id id' e :
  preserves (fun reg : registry => reg !! id = None) (on_exception id' e).
Proof. apply preserves_on_exception; apply set_field_adds_no_job. Qed.

(** X9.  The progress hook and the [except] clause never create a job.
    Called for an identifier that has no record, the hook leaves the
    whole registry as it is, whatever the event, and the [except]
    clause raises [KeyError] without writing. *)
Theorem hook_never_creates_a_job py_float id d e (reg : registry) :
  reg !! id = None ->
  (progress_hook py_float id d reg).2 = reg /\
  on_exception id e reg = (Raised (KeyError id), reg).
Proof.
  intros Hnone. split; [|by apply on_exception_none].
  apply (preserves_progress_hook py_float (fun reg' => reg' = reg));
    [| | |done]; intros; repeat split; intros;
    apply preserves_set_field; intros reg' r' -> Hr'; congruence.
Qed.

Lemma hook_never_creates_a_job_witness :
  (progress_hook decimal_float "1700" (ev_finished "/tmp/dl/a.mp4") ∅).2 = ∅ /\
  on_exception "1700" (Exn "E" "x") ∅ = (Raised (KeyError "1700"), ∅).
Proof.
  apply (hook_never_creates_a_job decimal_float "1700"
           (ev_finished "/tmp/dl/a.mp4") (Exn "E" "x") ∅).
  apply lookup_empty.
Defined.

Lemma step_adds_started_jobs_only py_float l w w' id :
  step py_float l w = Some w' ->
  is_Some (download_progress w' !! id) ->
  is_Some (download_progress w !! id) \/
  exists i t, l = Thread_start i /\ threads w !! i = Some t /\ t_id t = id.
Proof.
  intros Hstep Hin.
  destruct (download_progress w !! id) as [r|] eqn:Hr; [left; eauto|].
  right. destruct l; step_cases Hstep.
  - rewrite download_registry, Hr in Hin. by destruct Hin.
  - rewrite Hr in Hin. by destruct Hin.
  - destruct (decide (t_id t = id)) as [<-|Hne]; [eauto|].
    rewrite lookup_insert_ne, Hr in Hin by done. by destruct Hin.
  - pose proof (hook_adds_no_job py_float id (t_id t) d _ Hr) as H.
    rewrite Hh in H. simpl in H. rewrite H in Hin. by destruct Hin.
  - pose proof (hook_adds_no_job py_float id (t_id t) d _ Hr) as H.
    rewrite Hh in H. simpl in H.
    rewrite (on_exception_adds_no_job id (t_id t) e _ H) in Hin.
    by destruct Hin.
  - rewrite (on_exception_adds_no_job id (t_id t) e _ Hr) in Hin.
    by destruct Hin.
  - rewrite Hr in Hin. by destruct Hin.
Qed.

(** A thread keeps its identifier, and once started it never goes back
    to [Spawned]. *)
Lemma step_keeps_started py_float l w w' j t :
  step py_float l w = Some w' ->
  threads w !! j = Some t -> t_phase t <> Spawned ->
  exists t', threads w' !! j = Some t' /\ t_id t' = t_id t /\
             t_phase t' <> Spawned.
Proof.
  intros Hstep Hj Hph.
  assert (Hsame : threads w' = threads w -> exists t',
            threads w' !! j = Some t' /\ t_id t' = t_id t /\
            t_phase t' <> Spawned).
  { intros ->. by exists t. }
  assert (Hins : forall i t0 p, threads w !! i = Some t0 -> p <> Spawned ->
            exists t', <[i := set_phase p t0]> (threads w) !! j = Some t' /\
                       t_id t' = t_id t /\ t_phase t' <> Spawned).
  { intros i t0 p Hi Hp. destruct (decide (i = j)) as [->|Hne].
    - exists (set_phase p t0). rewrite list_lookup_insert_eq
        by by eapply lookup_lt_Some.
      simplify_eq. done.
    - exists t. by rewrite list_lookup_insert_ne. }
  destruct l; step_cases Hstep; auto.
  - exists t. rewrite download_threads.
    destruct (accepted _); [|done]. by rewrite lookup_app_l_Some with (x := t).
  - apply Hins; [done|]. by destruct (on_exception _ _ _).1.
  - apply Hins; [done|]. by destruct (on_exception _ _ _).1.
Qed.

Lemma step_jobs_have_threads py_float l w w' :
  step py_float l w = Some w' -> jobs_have_threads w -> jobs_have_threads w'.
Proof.
  intros Hstep Hinv id Hin.
  destruct (step_adds_started_jobs_only _ _ _ _ _ Hstep Hin)
    as [Hold|(i & t & -> & Ht & <-)].
  - destruct (Hinv id Hold) as (j & t & Hj & <- & Hph).
    destruct (step_keeps_started _ _ _ _ _ _ Hstep Hj Hph)
      as (t' & Hj' & Hid & Hph').
    by exists j, t'.
  - unfold step in Hstep. rewrite Ht in Hstep. simpl in Hstep.
    destruct (t_phase t); simplify_eq. simpl.
    exists i. eexists. split.
    + apply list_lookup_insert_eq. by eapply lookup_lt_Some.
    + done.
Qed.

(** X10.  No job exists before its worker has started.  In every run of
    the process, each identifier in the registry is the identifier of a
    thread that [download] has spawned and that has run line 21. *)
Theorem every_job_has_a_started_thread py_float ls w id :
  run py_float ls initial = Some w ->
  is_Some (download_progress w !! id) ->
  exists i t, threads w !! i = Some t /\ t_id t = id /\ t_phase t <> Spawned.
Proof.
  intros Hrun. revert id. change (jobs_have_threads w).
  assert (H0 : jobs_have_threads initial).
  { intros id [r Hr]. simpl in Hr. by rewrite lookup_empty in Hr. }
  revert Hrun H0. generalize initial. induction ls as [|l ls IH];
    intros w0 Hrun H0.
  - by simplify_eq/=.
  - simpl in Hrun. destruct (step py_float l w0) as [w1|] eqn:Hstep; [|done].
    apply (IH w1 Hrun). by eapply step_jobs_have_threads.
Qed.

Lemma every_job_has_a_started_thread_witness :
  exists w,
    run decimal_float
      [Post_download sample_request (17 # 10); Thread_start 0] initial
      = Some w /\
    exists i t, threads w !! i = Some t /\ t_id t = "1700" /\
                t_phase t <> Spawned.
Proof.
  eexists. split; [vm_compute; reflexivity|].
  eapply (every_job_has_a_started_thread decimal_float
            [Post_download sample_request (17 # 10); Thread_start 0]).
  - vm_compute. reflexivity.
  - vm_compute. eauto.
Defined.

(** ** How a job completes *)

Lemma hook_status py_float id d (reg reg' : registry) :
  progress_hook py_float id d reg = (Ok tt, reg') ->
  field id "status" reg' =
    if String.eqb (status d) "finished" then Some (VStr "completed")
    else field id "status" reg.
Proof.
  intros Hok. destruct (String.eqb_spec (status d) "finished") as [Hs|Hs].
  - revert Hok. unfold progress_hook. rewrite Hs. simpl.
    destruct (reg !! id) as [r|] eqn:Hr.
    + destruct (filename d) as [p|] eqn:Hp.
      * pose proof (finished_event py_float id d p reg r Hr Hs Hp) as E.
        unfold progress_hook in E. rewrite Hs, Hp in E. simpl in E.
        rewrite E. intros [= <-]. unfold field. rewrite lookup_insert_eq.
        simpl. do 2 rewrite lookup_insert_ne by done.
        by rewrite lookup_insert_eq.
      * unfold mbind, py_bind.
        rewrite (set_field_some _ _ _ _ r Hr).
        erewrite set_field_some by apply lookup_insert_eq. done.
    + unfold mbind, py_bind. by rewrite (set_field_none _ _ _ _ Hr).
  - pose proof (preserves_progress_hook py_float
                  (fun reg0 => field id "status" reg0 = field id "status" reg)
                  id d) as H.
    assert (Hkeep : forall v, preserves
              (fun reg0 => field id "status" reg0 = field id "status" reg)
              (set_field id "progress" v)).
    { intros v. apply set_field_other_field. by right. }
    specialize (H (fun _ _ _ _ _ _ => Hkeep _) (fun _ _ _ _ _ _ => Hkeep _)).
    specialize (H (fun Hf => False_rect _ (Hs Hf)) reg eq_refl).
    by rewrite Hok in H.
Qed.

Lemma call_hooks_status py_float id ds (reg reg' : registry) :
  call_hooks (progress_hook py_float id) ds reg = (Ok tt, reg') ->
  field id "status" reg' =
    if announces_finished ds then Some (VStr "completed")
    else field id "status" reg.
Proof.
  revert reg. induction ds as [|d ds IH]; intros reg; simpl.
  - by intros [= <-].
  - unfold mbind, py_bind.
    destruct (progress_hook py_float id d reg) as [[[]|e] reg1] eqn:Hh; [|done].
    intros Hrest. rewrite (IH _ Hrest), (hook_status _ _ _ _ _ Hh).
    destruct (String.eqb (status d) "finished"); simpl;
      by destruct (announces_finished ds).
Qed.

(** X11.  Completion is announced by the collaborator only.  When the
    [try] block of [download_video] ends without an exception, the job
    reads [completed] if at least one [finished] event was delivered,
    and is left at [downloading] otherwise: a normal return of
    [ydl.download] does not by itself complete the job. *)
Theorem status_after_normal_return
    py_float url quality id b (reg reg1 : registry) :
  worker_body py_float url quality id b reg = (Ok tt, reg1) ->
  field id "status" (download_video py_float url quality id b reg).2 =
    Some (VStr (if announces_finished (emitted (b url (format_selector quality)))
                then "completed" else "downloading")).
Proof.
  intros Hok. rewrite (download_video_returned _ _ _ _ _ _ _ Hok). simpl.
  revert Hok. unfold worker_body, ydl_download, mbind, py_bind, set_job at 1.
  destruct (call_hooks _ _ _) as [[[]|e] reg2] eqn:Hc; [|done].
  intros Hend. apply call_hooks_status in Hc.
  assert (reg2 = reg1) as ->.
  { revert Hend. unfold ending_of. destruct (ends _); by intros [=]. }
  rewrite Hc. destruct (announces_finished _); [done|].
  unfold field. by rewrite lookup_insert_eq.
Qed.

Lemma status_after_normal_return_witness :
  field "1700" "status"
    (download_video decimal_float "https://example.org/v" "best" "1700"
       (fun _ _ => {| emitted := [ev_bytes 1 2; ev_bytes 2 2]; ends := Returns |})
       ∅).2
  = Some (VStr "downloading").
Proof.
  eapply (status_after_normal_return decimal_float "https://example.org/v"
            "best" "1700"
            (fun _ _ => {| emitted := [ev_bytes 1 2; ev_bytes 2 2];
                           ends := Returns |}) ∅).
  vm_compute. reflexivity.
Defined.

(** ** Progress does not go back on growing byte counts *)

Ltac compare_facts :=
  repeat match goal with
  | H : (_ ?= _)%Q = Eq |- _ => apply Qeq_alt in H
  | H : (_ ?= _)%Q = Lt |- _ => apply Qlt_alt in H
  | H : (_ ?= _)%Q = Gt |- _ => apply Qgt_alt in H
  end.

Lemma round_half_even_mono x y :
  (x <= y)%Q -> round_half_even x <= round_half_even y.
Proof.
  intros Hxy.
  pose proof (Qfloor_resp_le _ _ Hxy) as Hfl.
  destruct (floor_spec x) as [Hx1 Hx2]. destruct (floor_spec y) as [Hy1 Hy2].
  unfold round_half_even.
  destruct (decide (Qfloor x = Qfloor y)) as [E|Hne].
  - rewrite E in *.
    destruct (x - inject_Z (Qfloor y) ?= 1 # 2)%Q eqn:Ex;
      destruct (y - inject_Z (Qfloor y) ?= 1 # 2)%Q eqn:Ey;
      compare_facts;
      first [exfalso; lra | destruct (Z.even (Qfloor y)); lia].
  - assert (Qfloor x + 1 <= Qfloor y) by lia.
    destruct (x - inject_Z (Qfloor x) ?= 1 # 2)%Q;
      destruct (y - inject_Z (Qfloor y) ?= 1 # 2)%Q;
      try (destruct (Z.even (Qfloor x)));
      try (destruct (Z.even (Qfloor y))); lia.
Qed.

Lemma round1_mono x y : (x <= y)%Q -> (round1 x <= round1 y)%Q.
Proof.
  intros Hxy. unfold round1, Qle. simpl.
  assert (round_half_even (x * 10) <= round_half_even (y * 10)).
  { apply round_half_even_mono. lra. }
  lia.
Qed.

(** X12.  Between two [downloading] events that report the same known
    total size, a byte count that has not gone down gives a progress
    that has not gone down: rounding to one decimal keeps the order. *)
Theorem progress_follows_byte_count
    py_float id d1 d2 n1 n2 t (reg : registry) r :
  reg !! id = Some r ->
  status d1 = "downloading" -> status d2 = "downloading" ->
  total_bytes d1 = Some t -> total_bytes d2 = Some t -> 0 < t ->
  downloaded_bytes d1 = Some n1 -> downloaded_bytes d2 = Some n2 ->
  n1 <= n2 ->
  exists q1 q2,
    field id "progress" (progress_hook py_float id d1 reg).2
      = Some (VFloat (Finite q1)) /\
    field id "progress"
      (progress_hook py_float id d2 (progress_hook py_float id d1 reg).2).2
      = Some (VFloat (Finite q2)) /\
    (q1 <= q2)%Q.
Proof.
  intros Hr Hs1 Hs2 Ht1 Ht2 Ht Hn1 Hn2 Hle.
  assert (Hne : t <> 0) by lia.
  rewrite (bytes_event py_float _ _ _ _ _ _ Hr Hs1 Ht1 Hne Hn1). simpl.
  erewrite (bytes_event py_float _ d2) by
    (first [apply lookup_insert_eq | eassumption]).
  simpl. eexists _, _. unfold field. rewrite !lookup_insert_eq. simpl.
  rewrite !lookup_insert_eq. split; [done|]. split; [done|].
  apply round1_mono.
  assert (H0 : (0 < inject_Z t)%Q).
  { change 0%Q with (inject_Z 0). rewrite <- Zlt_Qlt. lia. }
  assert (H1 : (inject_Z n1 <= inject_Z n2)%Q) by by rewrite <- Zle_Qle.
  apply Qmult_le_compat_r; [|lra]. unfold Qdiv.
  apply Qmult_le_compat_r; [done|]. apply Qinv_le_0_compat. lra.
Qed.

Lemma progress_follows_byte_count_witness :
  exists q1 q2,
    field "1700" "progress"
      (progress_hook decimal_float "1700" (ev_bytes 1 3) {[ "1700" := new_job ]}).2
      = Some (VFloat (Finite q1)) /\
    field "1700" "progress"
      (progress_hook decimal_float "1700" (ev_bytes 2 3)
         (progress_hook decimal_float "1700" (ev_bytes 1 3)
            {[ "1700" := new_job ]}).2).2
      = Some (VFloat (Finite q2)) /\
    (q1 <= q2)%Q.
Proof.
  apply (progress_follows_byte_count decimal_float "1700" (ev_bytes 1 3)
           (ev_bytes 2 3) 1 2 3 {[ "1700" := new_job ]} new_job);
    first [apply lookup_singleton_eq | reflexivity | lia].
Defined.

(** ** More on the format catalogue (lines 80-95) *)

Lemma elem_of_formats e fs :
  e ∈ get_video_info_formats fs <->
  exists h, e = entry_of h /\ h ∈ omap qualifies fs.
Proof.
  unfold get_video_info_formats.
  rewrite sort_desc_perm, collect_first_occurrences, list_elem_of_fmap.
  split; intros (h & -> & Hh); exists h; split; try done;
    by apply elem_of_first_occurrences.
Qed.

Lemma formats_sorted fs : StronglySorted taller (get_video_info_formats fs).
Proof.
  apply sorted_strictly; [|apply sort_desc_sorted].
  unfold get_video_info_formats. rewrite sort_desc_perm.
  apply NoDup_collect_heights.
Qed.

Lemma NoDup_formats fs : NoDup (get_video_info_formats fs).
Proof.
  apply (NoDup_fmap_1 e_height). unfold get_video_info_formats.
  rewrite sort_desc_perm. apply NoDup_collect_heights.
Qed.

(** X13.  The catalogue depends only on which descriptors the
    collaborator lists, not on their order nor on how often each is
    listed: two lists with the same descriptors give the same
    catalogue. *)
Theorem catalogue_ignores_order fs1 fs2 :
  (forall f, f ∈ fs1 <-> f ∈ fs2) ->
  get_video_info_formats fs1 = get_video_info_formats fs2.
Proof.
  intros Hsame.
  assert (Hh : forall h, h ∈ omap qualifies fs1 <-> h ∈ omap qualifies fs2).
  { intros h. rewrite !list_elem_of_omap.
    split; intros (f & Hf & Hq); exists f; split; try done; by apply Hsame. }
  apply (StronglySorted_unique_strong taller);
    [ | apply formats_sorted | apply formats_sorted | ].
  - unfold taller. intros ? ? _ _ ? ?. lia.
  - apply NoDup_Permutation; [apply NoDup_formats..|].
    intros e. rewrite !elem_of_formats.
    split; intros (h & -> & Hin); exists h; split; try done; by apply Hh.
Qed.

Lemma catalogue_ignores_order_witness :
  get_video_info_formats
    [{| ext := Some "mp4"; height := Some 480 |};
     {| ext := Some "mp4"; height := Some 720 |}]
  = get_video_info_formats
      [{| ext := Some "mp4"; height := Some 720 |};
       {| ext := Some "mp4"; height := Some 480 |};
       {| ext := Some "mp4"; height := Some 720 |}].
Proof.
  apply catalogue_ignores_order. intros f.
  rewrite !elem_of_cons, !elem_of_nil. tauto.
Defined.

Lemma label_of_inj h1 h2 : label_of h1 = label_of h2 -> h1 = h2.
Proof.
  unfold label_of, py_str. intros H. apply (inj pretty).
  revert H. generalize (pretty h1) (pretty h2). clear.
  intros s1. induction s1 as [|c s1 IH]; intros [|c' s2] H.
  - done.
  - injection H as -> H. by destruct s2.
  - injection H as -> H. by destruct s1.
  - injection H as -> H. f_equal. by apply IH.
Qed.

Lemma length_first_occurrences l :
  (length (first_occurrences l) <= length l)%nat.
Proof.
  induction l as [|x l IH]; simpl; [lia|].
  pose proof (length_filter (fun y => y <> x) (first_occurrences l)). lia.
Qed.

Lemma length_omap_qualifies fs :
  (length (omap qualifies fs) <= length fs)%nat.
Proof.
  unfold omap. induction fs as [|f fs IH]; simpl; [lia|].
  destruct (qualifies f); simpl; lia.
Qed.

(** X14.  The catalogue never has more entries than the collaborator
    listed descriptors, no two of its entries carry the same label, and
    it is empty exactly when no descriptor has the container [mp4]
    with a height that is present and not zero. *)
Theorem catalogue_shape fs :
  (length (get_video_info_formats fs) <= length fs)%nat /\
  NoDup (quality <$> get_video_info_formats fs) /\
  (get_video_info_formats fs = [] <->
   forall f h, f ∈ fs -> ext f = Some "mp4" -> height f = Some h -> h = 0).
Proof.
  split; [|split].
  - unfold get_video_info_formats.
    rewrite sort_desc_perm, collect_first_occurrences, length_fmap.
    pose proof (length_first_occurrences (omap qualifies fs)).
    pose proof (length_omap_qualifies fs). lia.
  - unfold get_video_info_formats.
    rewrite sort_desc_perm, collect_first_occurrences, <- list_fmap_compose.
    apply NoDup_fmap_2; [|apply NoDup_first_occurrences].
    intros h1 h2. simpl. apply label_of_inj.
  - split.
    + intros Hnil f h Hf He Hh. destruct (decide (h = 0)) as [|Hne]; [done|].
      assert (Hin : entry_of h ∈ get_video_info_formats fs).
      { apply elem_of_formats. exists h. split; [done|].
        apply list_elem_of_omap. exists f. split; [done|].
        by apply qualifies_spec. }
      rewrite Hnil in Hin. by apply elem_of_nil in Hin.
    + intros Hnone. destruct (get_video_info_formats fs) as [|e l] eqn:E;
        [done|].
      assert (Hin : e ∈ get_video_info_formats fs) by (rewrite E; left).
      apply elem_of_formats in Hin as (h & _ & Hh).
      apply list_elem_of_omap in Hh as (f & Hf & Hq).
      apply qualifies_spec in Hq as (He & Hh & Hne).
      by destruct (Hne (Hnone f h Hf He Hh)).
Qed.

(** ** From the quality options of the page to the selector *)

Lemma label_not_keyword s :
  s +:+ "p" <> "" /\ s +:+ "p" <> "best" /\ s +:+ "p" <> "worst".
Proof.
  repeat split; intros H;
    do 6 (destruct s as [|? s]; [by inversion H|]); by inversion H.
Qed.

Lemma quality_of_format e fs :
  e ∈ get_video_info_formats fs -> quality e = py_str (e_height e) +:+ "p".
Proof. intros (h & -> & _)%elem_of_formats. reflexivity. Qed.

Lemma qualities_lookup_format formats k e :
  formats !! k = Some e ->
  qualities formats !! S k = Some (item_of_entry e).
Proof.
  intros Hk. unfold qualities. simpl.
  rewrite lookup_app_l by (rewrite length_fmap; by eapply lookup_lt_Some).
  by rewrite list_lookup_fmap, Hk.
Qed.

Lemma qualities_lookup_last formats :
  qualities formats !! S (length formats)
  = Some {| item_quality := "worst"; item_height := inl "Worst" |}.
Proof.
  unfold qualities. simpl.
  rewrite lookup_app_r by (rewrite length_fmap; lia).
  by rewrite length_fmap, Nat.sub_diag.
Qed.

(** X15.  What the page sends for a quality.  The option selected when
    the options are shown is [best]; the last option is [worst]; and the
    option shown for a catalogue entry of height [h] carries the label
    of the entry, [h] followed by [p], not the height.  Posted with a
    URL, that token is the quality of the spawned worker, whose selector
    is then [best[height<=hp][ext=mp4]], with the [p] inside. *)
Theorem page_sends_the_label fs :
  selectedQuality (get_video_info_formats fs) None = Some "best" /\
  selectedQuality (get_video_info_formats fs)
    (Some (S (length (get_video_info_formats fs)))) = Some "worst" /\
  forall k e,
    get_video_info_formats fs !! k = Some e ->
    selectedQuality (get_video_info_formats fs) (Some (S k))
      = Some (py_str (e_height e) +:+ "p") /\
    forall url now w, url <> "" ->
      threads (download (download_request url (py_str (e_height e) +:+ "p"))
                 now w).2
      = (threads w ++
          [{| t_url := url; t_quality := py_str (e_height e) +:+ "p";
              t_id := new_download_id now; t_phase := Spawned |}])%list /\
      format_selector (py_str (e_height e) +:+ "p")
      = "best[height<=" +:+ (py_str (e_height e) +:+ "p") +:+ "][ext=mp4]".
Proof.
  split; [reflexivity|]. split.
  - unfold selectedQuality. simpl default.
    by rewrite qualities_lookup_last.
  - intros k e Hk.
    assert (Hq : quality e = py_str (e_height e) +:+ "p").
    { eapply quality_of_format, list_elem_of_lookup_2, Hk. }
    destruct (label_not_keyword (py_str (e_height e))) as (Hne & Hb & Hw).
    split.
    + unfold selectedQuality. simpl default.
      rewrite (qualities_lookup_format _ _ _ Hk). simpl.
      unfold option_quality. simpl. rewrite Hq.
      by destruct (String.eqb_spec (py_str (e_height e) +:+ "p") "").
    + intros url now w Hurl. split.
      * rewrite (download_accepted _ _ _ url); [|by apply lookup_insert_eq|done].
        simpl. unfold download_request.
        by rewrite lookup_insert_ne, lookup_insert_eq.
      * by apply format_selector_other.
Qed.

Lemma page_sends_the_label_witness :
  selectedQuality
    (get_video_info_formats
       [{| ext := Some "mp4"; height := Some 720 |};
        {| ext := Some "mp4"; height := Some 1080 |}]) (Some 2%nat)
  = Some "720p" /\
  format_selector "720p" = "best[height<=720p][ext=mp4]".
Proof.
  destruct (proj2 (proj2 (page_sends_the_label
              [{| ext := Some "mp4"; height := Some 720 |};
               {| ext := Some "mp4"; height := Some 1080 |}]))
              1%nat {| e_height := 720; quality := "720p" |}) as [H1 H2].
  { vm_compute. reflexivity. }
  split; [exact H1|].
  apply (H2 "https://example.org/watch?v=1" (17 # 10)%Q initial). discriminate.
Defined.

(** ** Download identifiers *)

(** X16.  Two requests get the same identifier exactly when their
    clock readings fall in the same millisecond count: the decimal
    rendering of line 120 loses nothing of [int(time.time() * 1000)]. *)
Theorem identifiers_collide_iff now1 now2 :
  new_download_id now1 = new_download_id now2 <->
  py_int (now1 * 1000)%Q = py_int (now2 * 1000)%Q.
Proof. apply new_download_id_eq. Qed.

(** ** One worker thread, run to its end *)

(** X17.  The actions of one spawned worker thread, run one after the
    other up to the first exception, do to the registry exactly what
    [download_video] does with the thread's arguments, and leave the
    thread finished; the other threads are as they were. *)
Theorem thread_runs_download_video py_float i b w t :
  threads w !! i = Some t -> t_phase t = Spawned ->
  exists n w',
    run py_float (take n (thread_script i b)) w = Some w' /\
    download_progress w' =
      (download_video py_float (t_url t) (t_quality t) (t_id t)
         (fun _ _ => b) (download_progress w)).2 /\
    threads w' = <[i := set_phase Finished t]> (threads w).
Proof. apply thread_script_refines. Qed.

Lemma thread_runs_download_video_witness :
  exists n w',
    run decimal_float
      (take n (thread_script 0
                 {| emitted := [ev_bytes 1 2; ev_finished "/tmp/dl/a.mp4"];
                    ends := Returns |}))
      (download sample_request (17 # 10) initial).2 = Some w' /\
    download_progress w' =
      (download_video decimal_float "https://example.org/watch?v=1" "best"
         "1700"
         (fun _ _ => {| emitted := [ev_bytes 1 2; ev_finished "/tmp/dl/a.mp4"];
                        ends := Returns |}) ∅).2 /\
    threads w' =
      [{| t_url := "https://example.org/watch?v=1"; t_quality := "best";
          t_id := "1700"; t_phase := Finished |}].
Proof.
  apply (thread_runs_download_video decimal_float 0
           {| emitted := [ev_bytes 1 2; ev_finished "/tmp/dl/a.mp4"];
              ends := Returns |}
           (download sample_request (17 # 10) initial).2
           {| t_url := "https://example.org/watch?v=1"; t_quality := "best";
              t_id := "1700"; t_phase := Spawned |});
    reflexivity.
Defined.

(** ** The error field *)

Lemma call_hooks_no_error py_float id ds :
  preserves (fun reg => field id "error" reg = None)
    (call_hooks (progress_hook py_float id) ds).
Proof.
  apply preserves_call_hooks. intros d _.
  apply preserves_progress_hook; intros; repeat split; intros;
    apply set_field_other_field; by right.
Qed.

Lemma worker_body_ok_no_error py_float url quality id b (reg reg1 : registry) :
  worker_body py_float url quality id b reg = (Ok tt, reg1) ->
  field id "error" reg1 = None.
Proof.
  unfold worker_body, ydl_download, mbind, py_bind, set_job at 1.
  destruct (call_hooks _ _ _) as [[[]|e] reg2] eqn:Hc; [|done].
  intros Hend. assert (reg2 = reg1) as ->.
  { revert Hend. unfold ending_of. destruct (ends _); by intros [=]. }
  pose proof (call_hooks_no_error py_float id
                (emitted (b url (format_selector quality)))
                (<[id := new_job]> reg)) as H.
  rewrite Hc in H. apply H. unfold field. by rewrite lookup_insert_eq.
Qed.

(** X18.  After [download_video], the record of the job has an error
    field exactly when the [try] block raised, and the field is then the
    text of that exception: a worker whose collaborator returned
    normally leaves a record without an error field. *)
Theorem error_field_iff_raised py_float url quality id b (reg : registry) :
  field id "error" (download_video py_float url quality id b reg).2 =
    match (worker_body py_float url quality id b reg).1 with
    | Ok _ => None
    | Raised e => Some (VStr (exn_str e))
    end.
Proof.
  pose proof (worker_body_has_job py_float url quality id b reg) as [r Hr].
  destruct (worker_body py_float url quality id b reg) as [[[]|e] reg1] eqn:E;
    simpl in *.
  - rewrite (download_video_returned _ _ _ _ _ _ _ E). simpl.
    by eapply worker_body_ok_no_error.
  - rewrite (download_video_raised _ _ _ _ _ _ _ _ E).
    rewrite (on_exception_some _ _ _ _ Hr). unfold field. simpl.
    rewrite lookup_insert_eq. simpl. by rewrite lookup_insert_eq.
Qed.

(** ** A started worker is visible *)

Lemma step_started py_float l w w' j t' :
  step py_float l w = Some w' ->
  threads w' !! j = Some t' -> t_phase t' <> Spawned ->
  (exists t, threads w !! j = Some t /\ t_id t = t_id t' /\
             t_phase t <> Spawned) \/
  is_Some (download_progress w' !! t_id t').
Proof.
  intros Hstep Hj Hph.
  assert (Hold : threads w !! j = Some t' ->
    exists t, threads w !! j = Some t /\ t_id t = t_id t' /\
              t_phase t <> Spawned).
  { intros H. by exists t'. }
  assert (Hins : forall i t0 p, threads w !! i = Some t0 ->
            <[i := set_phase p t0]> (threads w) !! j = Some t' ->
            t_phase t0 <> Spawned ->
            exists t, threads w !! j = Some t /\ t_id t = t_id t' /\
                      t_phase t <> Spawned).
  { intros i t0 p Hi Hl Hp0.
    apply list_lookup_insert_Some in Hl as [(<- & <- & _)|[Hne Hl]];
      [by exists t0|auto]. }
  destruct l; step_cases Hstep.
  - left. rewrite download_threads in Hj. destruct (accepted _); [|auto].
    apply lookup_app_Some in Hj as [Hj|[_ Hj]]; [auto|].
    apply list_lookup_singleton_Some in Hj as [_ <-]. done.
  - auto.
  - apply list_lookup_insert_Some in Hj as [(<- & <- & _)|[Hne Hj]].
    + right. simpl. rewrite lookup_insert_eq. eauto.
    + auto.
  - auto.
  - left. eapply Hins; [exact Ht|exact Hj|]. by rewrite Hp.
  - left. eapply Hins; [exact Ht|exact Hj|]. by rewrite Hp.
  - left. eapply Hins; [exact Ht|exact Hj|]. by rewrite Hp.
Qed.

Lemma run_started_jobs_exist py_float ls w w' :
  run py_float ls w = Some w' -> started_jobs_exist w -> started_jobs_exist w'.
Proof.
  revert w. induction ls as [|l ls IH]; intros w Hrun Hinv.
  - by simplify_eq/=.
  - simpl in Hrun. destruct (step py_float l w) as [w1|] eqn:Hstep; [|done].
    apply (IH w1 Hrun). intros j t' Hj Hph.
    destruct (step_started _ _ _ _ _ _ Hstep Hj Hph)
      as [(t & Ht & <- & Hp)|H]; [|done].
    eapply step_keeps_jobs; [exact Hstep|]. by eapply Hinv.
Qed.

(** X19.  Once a worker has started, its job is visible for good.  In
    every run of the process, for every thread that has run line 21,
    [get_progress] on its identifier answers with a record, never with
    [not_found], and the status of that record is [downloading],
    [completed] or [error]. *)
Theorem started_worker_is_visible py_float ls w i t :
  run py_float ls initial = Some w ->
  threads w !! i = Some t -> t_phase t <> Spawned ->
  exists r,
    get_progress (t_id t) (download_progress w) = Json 200 r /\
    (r !! "status" = Some (VStr "downloading") \/
     r !! "status" = Some (VStr "completed") \/
     r !! "status" = Some (VStr "error")).
Proof.
  intros Hrun Ht Hph.
  assert (H0 : started_jobs_exist initial).
  { intros j t0 Hj. simpl in Hj. by rewrite lookup_nil in Hj. }
  destruct (run_started_jobs_exist _ _ _ _ Hrun H0 i t Ht Hph) as [r Hr].
  exists r. split; [by apply progress_of_known_id|].
  by apply (run_status_written _ _ _ Hrun (t_id t)).
Qed.

Lemma started_worker_is_visible_witness :
  exists r,
    get_progress "1700"
      (download_progress
         {| download_progress := {[ "1700" := new_job ]};
            threads := [{| t_url := "https://example.org/watch?v=1";
                           t_quality := "best"; t_id := "1700";
                           t_phase := Running "best[ext=mp4]" |}] |})
      = Json 200 r /\
    (r !! "status" = Some (VStr "downloading") \/
     r !! "status" = Some (VStr "completed") \/
     r !! "status" = Some (VStr "error")).
Proof.
  apply (started_worker_is_visible decimal_float
           [Post_download sample_request (17 # 10); Thread_start 0] _ 0%nat
           {| t_url := "https://example.org/watch?v=1"; t_quality := "best";
              t_id := "1700"; t_phase := Running "best[ext=mp4]" |});
    [vm_compute; reflexivity | reflexivity | discriminate].
Defined.

(** ** Who creates the record of a job (lines 21 and 108-127) *)

Lemma run_app py_float ls1 ls2 w :
  run py_float (ls1 ++ ls2) w = run py_float ls1 w ≫= run py_float ls2.
Proof.
  revert w. induction ls1 as [|l ls1 IH]; intros w; simpl; [done|].
  destruct (step py_float l w); simpl; auto.
Qed.

Lemma step_keeps_thread_id py_float l w w' j t :
  step py_float l w = Some w' -> threads w !! j = Some t ->
  exists t', threads w' !! j = Some t' /\ t_id t' = t_id t.
Proof.
  intros Hstep Hj.
  assert (Hins : forall i t0 p, threads w !! i = Some t0 ->
            exists t', <[i := set_phase p t0]> (threads w) !! j = Some t' /\
                       t_id t' = t_id t).
  { intros i t0 p Hi. destruct (decide (i = j)) as [->|Hne].
    - exists (set_phase p t0). rewrite list_lookup_insert_eq
        by by eapply lookup_lt_Some.
      simplify_eq. done.
    - exists t. by rewrite list_lookup_insert_ne. }
  destruct l; step_cases Hstep; eauto.
  exists t. rewrite download_threads.
  destruct (accepted _); [|done]. by rewrite lookup_app_l_Some with (x := t).
Qed.

Lemma run_keeps_thread_id py_float ls w w' j t :
  run py_float ls w = Some w' -> threads w !! j = Some t ->
  exists t', threads w' !! j = Some t' /\ t_id t' = t_id t.
Proof.
  revert w t. induction ls as [|l ls IH]; intros w t Hrun Hj.
  - simplify_eq/=. eauto.
  - simpl in Hrun. destruct (step py_float l w) as [w1|] eqn:Hstep; [|done].
    destruct (step_keeps_thread_id _ _ _ _ _ _ Hstep Hj) as (t1 & Hj1 & <-).
    by apply (IH w1).
Qed.

Lemma run_jobs_have_threads py_float ls w :
  run py_float ls initial = Some w -> jobs_have_threads w.
Proof.
  assert (H0 : jobs_have_threads initial).
  { intros id [r Hr]. simpl in Hr. by rewrite lookup_empty in Hr. }
  revert H0. generalize initial. induction ls as [|l ls IH]; intros w0 H0 Hrun.
  - by simplify_eq/=.
  - simpl in Hrun. destruct (step py_float l w0) as [w1|] eqn:Hstep; [|done].
    apply (IH w1); [|done]. by eapply step_jobs_have_threads.
Qed.

(** C1, as the code has it.  The handler of [/download] answers with the
    identifier and spawns the worker thread; the record of the job is
    created by the first statement of that thread (line 21), which may
    run before or after the response is returned, with status
    [downloading], progress [0] and an empty filename.  Whatever happens
    after the thread is spawned, in every interleaving: no record has
    the status [pending]; a record exists only for an identifier whose
    worker has started; and once the worker of this request has started,
    [get_progress] on its identifier answers with a record, of status
    [downloading], [completed] or [error], for good. *)
Theorem job_is_created_by_the_worker py_float ls0 w data now url :
  run py_float ls0 initial = Some w ->
  data !! "url" = Some url -> url <> "" ->
  (download data now w).1
    = Json 200 {[ "download_id" := VStr (new_download_id now) ]} /\
  (exists w',
     step py_float (Thread_start (length (threads w))) (download data now w).2
       = Some w' /\
     get_progress (new_download_id now) (download_progress w')
       = Json 200 new_job) /\
  new_job !! "status" = Some (VStr "downloading") /\
  new_job !! "progress" = Some (VInt 0) /\
  new_job !! "filename" = Some (VStr "") /\
  forall ls w2,
    run py_float ls (download data now w).2 = Some w2 ->
    (forall id r,
       download_progress w2 !! id = Some r ->
       r !! "status" <> Some (VStr "pending") /\
       exists i t, threads w2 !! i = Some t /\ t_id t = id /\
                   t_phase t <> Spawned) /\
    (forall t,
       threads w2 !! length (threads w) = Some t -> t_phase t <> Spawned ->
       t_id t = new_download_id now /\
       exists r,
         get_progress (new_download_id now) (download_progress w2) = Json 200 r /\
         (r !! "status" = Some (VStr "downloading") \/
          r !! "status" = Some (VStr "completed") \/
          r !! "status" = Some (VStr "error"))).
Proof.
  intros Hrun0 Hu Hne.
  pose proof (start_after_download py_float data now w url Hu Hne) as Hstart.
  pose proof (download_accepted data now w url Hu Hne) as Hacc.
  split; [by rewrite Hacc|]. split.
  { eexists. split; [exact Hstart|]. simpl.
    unfold get_progress. by rewrite lookup_insert_eq. }
  split; [done|]. split; [done|]. split; [done|].
  intros ls w2 Hrun.
  assert (Hall : run py_float (ls0 ++ Post_download data now :: ls) initial
                 = Some w2).
  { rewrite run_app, Hrun0. simpl. exact Hrun. }
  pose proof (run_status_written _ _ _ Hall) as Hst.
  pose proof (run_jobs_have_threads _ _ _ Hall) as Hjt.
  assert (H0 : started_jobs_exist initial).
  { intros j t0 Hj. simpl in Hj. by rewrite lookup_nil in Hj. }
  pose proof (run_started_jobs_exist _ _ _ _ Hall H0) as Hsj.
  split.
  - intros id r Hr. split.
    + destruct (Hst id r Hr) as [->|[->| ->]]; discriminate.
    + apply Hjt. eauto.
  - intros t Ht Hph.
    assert (Hid : t_id t = new_download_id now).
    { destruct (run_keeps_thread_id py_float ls (download data now w).2 w2
                  (length (threads w))
                  {| t_url := url;
                     t_quality := default "best" (data !! "quality");
                     t_id := new_download_id now; t_phase := Spawned |} Hrun)
        as (t' & Ht' & Hid).
      { rewrite Hacc. simpl. by rewrite list_lookup_middle. }
      rewrite Ht in Ht'. by simplify_eq. }
    split; [exact Hid|].
    destruct (Hsj _ _ Ht Hph) as [r Hr]. rewrite Hid in Hr.
    exists r. split; [by apply progress_of_known_id|]. by apply (Hst _ _ Hr).
Qed.

Lemma job_is_created_by_the_worker_witness :
  exists w',
    step decimal_float (Thread_start 0)
      (download sample_request (17 # 10) initial).2 = Some w' /\
    get_progress (new_download_id (17 # 10)) (download_progress w')
      = Json 200 new_job.
Proof.
  apply (job_is_created_by_the_worker decimal_float [] initial sample_request
           (17 # 10) "https://example.org/watch?v=1");
    [reflexivity | reflexivity | discriminate].
Defined.

(** C1 fails as stated: no record is ever [pending].  When the worker
    has run its first statement, which is all it takes for the record
    to exist, [get_progress] answers with a record whose status is
    already [downloading], although no progress event has been
    delivered yet. *)
Lemma record_is_downloading_from_creation :
  (w ← run decimal_float
         [Post_download sample_request (17 # 10); Thread_start 0] initial;
   Some (get_progress "1700" (download_progress w)))
  = Some (Json 200 new_job) /\
  new_job !! "status" = Some (VStr "downloading") /\
  new_job !! "status" <> Some (VStr "pending").
Proof. split; [vm_compute; reflexivity|]. split; [reflexivity|discriminate]. Qed.
